(** * test-war: the room server and the connection hook

    A shallow embedding of the logic-bearing parts of the repository:

    - [GameRoom]: the Colyseus room of [src/rooms/GameRoom.ts] (state
      schema, [onCreate] message handlers, [onJoin], [onLeave]) together
      with the [hexSelect] handler and the [HexCell] schema as listed in
      the hex-selection document of the repository;
    - [UseColyseus]: the React hook of [src/hooks/useColyseus.ts]
      ([connect], [scheduleReconnect], [cleanup], [manualReconnect],
      [disconnect], [sendMessage], [getWebSocketConfig]) on top of an
      explicit JavaScript event loop (pending timers, pending
      [joinOrCreate] promises, a clock);
    - [HexScene]: the coordinates of the hexagon grid of
      [src/game/scenes/Hex.ts] ([generateAxialRadius]).

    Mutable objects are modelled by explicit state passing; [MapSchema]s
    are finite maps keyed by strings. *)

From stdpp Require Import gmap strings list fin_maps pretty.
From Stdlib Require Import ZArith QArith Qminmax Qpower Lia.

Open Scope string_scope.
Open Scope Z_scope.

(* ===================================================================== *)
(** * The room server *)
(* ===================================================================== *)

Module GameRoom.

(** ** Schema *)

(** [class Player extends Schema].  Coordinates are only ever stored by
    the handlers, never computed with; they are kept as integers. *)
Record Player := mkPlayer {
  name : string;
  x : Z;
  y : Z;
  status : string;
  joinedAt : Z;
  color : string
}.

(** [class HexCell extends Schema]. *)
Record HexCell := mkHexCell {
  q : Z;
  r : Z;
  selectedBy : string;
  cellColor : string
}.

(** [class MyState extends Schema]. *)
Record MyState := mkState {
  players : gmap string Player;
  hexGrid : gmap string HexCell;
  gameStatus : string;
  playerCount : nat
}.

Definition set_players (f : gmap string Player -> gmap string Player)
    (s : MyState) : MyState :=
  mkState (f (players s)) (hexGrid s) (gameStatus s) (playerCount s).

Definition set_hexGrid (f : gmap string HexCell -> gmap string HexCell)
    (s : MyState) : MyState :=
  mkState (players s) (f (hexGrid s)) (gameStatus s) (playerCount s).

Definition set_gameStatus (v : string) (s : MyState) : MyState :=
  mkState (players s) (hexGrid s) v (playerCount s).

Definition set_playerCount (v : nat) (s : MyState) : MyState :=
  mkState (players s) (hexGrid s) (gameStatus s) v.

(** ** Outbound messages *)

Inductive Outbound :=
| BroadcastStateUpdate (count : nat) (status : string) (playersCount : nat)
| BroadcastPlayerUpdate (roster : gmap string Player)
| BroadcastChat (sessionId message : string) (timestamp : Z)
| BroadcastHexUpdate (hq hr : Z) (by_ colour playerName : string)
| SendWelcome (to sessionId playerName roomId : string).

(** ** onCreate *)

(** The cells of the grid are created with the room; the code that fills
    the grid is not part of the sources, so the initial grid is a
    parameter. *)
Definition onCreate (grid : gmap string HexCell) : MyState :=
  let s := mkState ∅ grid "waiting" 0 in
  let s := set_playerCount 0 s in
  set_gameStatus "waiting" s.

(** ** Message handlers *)

(** [this.onMessage("move", ...)] *)
Definition onMove (sessionId : string) (mx my : Z) (s : MyState)
    : MyState * list Outbound :=
  match players s !! sessionId with
  | Some player =>
      let player := mkPlayer (name player) mx my "moving"
                             (joinedAt player) (color player) in
      (set_players (insert sessionId player) s, [])
  | None => (s, [])
  end.

(** [this.onMessage("chat", ...)] *)
Definition onChat (sessionId message : string) (now : Z) (s : MyState)
    : MyState * list Outbound :=
  (s, [BroadcastChat sessionId message now]).

(** [this.onMessage("status", ...)] *)
Definition onStatus (sessionId st : string) (s : MyState)
    : MyState * list Outbound :=
  match players s !! sessionId with
  | Some player =>
      let player := mkPlayer (name player) (x player) (y player) st
                             (joinedAt player) (color player) in
      (set_players (insert sessionId player) s, [])
  | None => (s, [])
  end.

(** The integers that a JavaScript number holds exactly and that a
    template literal prints digit by digit: those of absolute value at
    most 2^53.  Beyond that bound a number prints the shortest digits
    that read back as the same double, and from 1e21 on in exponent
    form. *)
Definition exactInteger (z : Z) : Prop := Z.abs z ≤ 2 ^ 53.

(** The key [`${message.q},${message.r}`], for coordinates that are exact
    integers: it is their decimal notation, which is what the template
    literal prints for them.  Outside [exactInteger] the embedding does
    not follow the digits JavaScript prints, so what depends on the
    characters of the key is stated for exact integers only. *)
Definition hexKey (mq mr : Z) : string := pretty mq ++ "," ++ pretty mr.

(** JavaScript truthiness of a string. *)
Definition truthy (v : string) : bool :=
  match v with EmptyString => false | String _ _ => true end.

(** [this.onMessage("hexSelect", ...)], as listed with the [HexCell]
    schema in the hex-selection document. *)
Definition onHexSelect (sessionId : string) (mq mr : Z) (s : MyState)
    : MyState * list Outbound :=
  match hexGrid s !! hexKey mq mr, players s !! sessionId with
  | Some hexCell, Some player =>
      let hexCell :=
        if String.eqb (selectedBy hexCell) sessionId
        then mkHexCell (q hexCell) (r hexCell) "" ""
        else mkHexCell (q hexCell) (r hexCell) sessionId (color player) in
      (set_hexGrid (insert (hexKey mq mr) hexCell) s,
       [BroadcastHexUpdate mq mr (selectedBy hexCell) (cellColor hexCell)
          (if truthy (selectedBy hexCell) then name player else "")])
  | _, _ => (s, [])
  end.

(** ** onJoin and onLeave *)

Definition playerColors : list string :=
  ["#3b82f6"; "#ef4444"; "#10b981"; "#f59e0b";
   "#8b5cf6"; "#f97316"; "#06b6d4"; "#84cc16"].

(** [options.name || `Player_${client.sessionId.substring(0, 6)}`] *)
Definition playerName (sessionId : string) (optName : option string) : string :=
  match optName with
  | Some n => if truthy n then n else "Player_" ++ String.substring 0 6 sessionId
  | None => "Player_" ++ String.substring 0 6 sessionId
  end.

Definition onJoin (roomId sessionId : string) (optName : option string)
    (now : Z) (s : MyState) : MyState * list Outbound :=
  let colorIndex := (size (players s) mod length playerColors)%nat in
  let player :=
    mkPlayer (playerName sessionId optName) 0 0 "idle" now
             (playerColors !!! colorIndex) in
  let s := set_players (insert sessionId player) s in
  let s := set_playerCount (size (players s)) s in
  let s := if (2 <=? playerCount s)%nat
           then set_gameStatus "active" s
           else set_gameStatus "waiting" s in
  (s, [BroadcastStateUpdate (playerCount s) (gameStatus s) (size (players s));
       BroadcastPlayerUpdate (players s);
       SendWelcome sessionId sessionId (name player) roomId]).

Definition onLeave (sessionId : string) (s : MyState)
    : MyState * list Outbound :=
  let s := set_players (delete sessionId) s in
  let s := set_playerCount (size (players s)) s in
  let s := if (playerCount s <? 2)%nat
           then set_gameStatus "waiting" s
           else s in
  (s, [BroadcastStateUpdate (playerCount s) (gameStatus s) (size (players s));
       BroadcastPlayerUpdate (players s)]).

(** ** The room as a machine over inbound events *)

Inductive Inbound :=
| Join (sessionId : string) (optName : option string) (now : Z)
| Leave (sessionId : string)
| Move (sessionId : string) (mx my : Z)
| Chat (sessionId message : string) (now : Z)
| Status (sessionId st : string)
| HexSelect (sessionId : string) (mq mr : Z).

Definition handle (roomId : string) (s : MyState) (e : Inbound)
    : MyState * list Outbound :=
  match e with
  | Join sid n now => onJoin roomId sid n now s
  | Leave sid => onLeave sid s
  | Move sid mx my => onMove sid mx my s
  | Chat sid m now => onChat sid m now s
  | Status sid st => onStatus sid st s
  | HexSelect sid mq mr => onHexSelect sid mq mr s
  end.

(** Messages are handled one at a time, in arrival order. *)
Fixpoint run (roomId : string) (s : MyState) (es : list Inbound) : MyState :=
  match es with
  | [] => s
  | e :: es' => run roomId (fst (handle roomId s e)) es'
  end.

(** The colours handed out by the joins of a run, in join order. *)
Fixpoint assignedColors (roomId : string) (s : MyState) (es : list Inbound)
    : list (option string) :=
  match es with
  | [] => []
  | e :: es' =>
      let s' := fst (handle roomId s e) in
      match e with
      | Join sid _ _ =>
          (color <$> players s' !! sid) :: assignedColors roomId s' es'
      | _ => assignedColors roomId s' es'
      end
  end.

Definition isJoin (e : Inbound) : bool :=
  match e with Join _ _ _ => true | _ => false end.

Definition isLeave (e : Inbound) : bool :=
  match e with Leave _ => true | _ => false end.

Definition joins (es : list Inbound) : nat := length (List.filter isJoin es).

Definition leaves (es : list Inbound) : nat := length (List.filter isLeave es).

(** A run has no overlapping identities when every join brings an identity
    that is not in the room and every leave is of a participant that is. *)
Fixpoint noOverlap (roomId : string) (s : MyState) (es : list Inbound) : bool :=
  match es with
  | [] => true
  | e :: es' =>
      match e with
      | Join sid _ _ => negb (bool_decide (is_Some (players s !! sid)))
      | Leave sid => bool_decide (is_Some (players s !! sid))
      | _ => true
      end && noOverlap roomId (fst (handle roomId s e)) es'
  end.

(** The derived status of the specification. *)
Definition statusOf (count : nat) : string :=
  if (2 <=? count)%nat then "active" else "waiting".

Definition consistent (s : MyState) : Prop :=
  playerCount s = size (players s) ∧ gameStatus s = statusOf (playerCount s).

(** ** Worked rooms *)

Definition alice : Player := mkPlayer "Alice" 0 0 "idle" 1000 "#3b82f6".
Definition bob : Player := mkPlayer "Bob" 5 7 "idle" 2000 "#ef4444".

Definition origin : HexCell := mkHexCell 0 0 "" "".

(** Alice and Bob in a room of one cell, which Alice holds. *)
Definition duel : MyState :=
  mkState (<["A" := alice]> (<["B" := bob]> ∅))
          (<["0,0" := mkHexCell 0 0 "A" "#3b82f6"]> ∅)
          "active" 2.

(** Three participants join and one of them leaves. *)
Definition threeInOneOut : list Inbound :=
  [Join "A" None 1; Join "B" (Some "Bob") 2; Join "C" None 3; Leave "B"].

(** The scenario of the specification: P1 joins and selects the cell at
    the origin, P2 joins and selects the same cell, P1 leaves. *)
Definition endToEnd : list Inbound :=
  [Join "P1" None 1; HexSelect "P1" 0 0;
   Join "P2" None 2; HexSelect "P2" 0 0;
   Leave "P1"].

(** Nine participants join, none leaves. *)
Definition nineJoins : list Inbound :=
  (λ sid, Join sid None 0) <$> ["a"; "b"; "c"; "d"; "e"; "f"; "g"; "h"; "i"].

(** ** Further observations *)

(** The outbound messages of a run, in the order they are sent. *)
Fixpoint outbound (roomId : string) (s : MyState) (es : list Inbound)
    : list Outbound :=
  match es with
  | [] => []
  | e :: es' =>
      snd (handle roomId s e) ++ outbound roomId (fst (handle roomId s e)) es'
  end.

(** The identity an inbound message comes from. *)
Definition senderOf (e : Inbound) : string :=
  match e with
  | Join sid _ _ | Leave sid | Move sid _ _ | Chat sid _ _
  | Status sid _ | HexSelect sid _ _ => sid
  end.

(** A stateUpdate whose two counts agree and whose status is the one
    derived from them. *)
Definition coherent (m : Outbound) : Prop :=
  match m with
  | BroadcastStateUpdate count st playersCount =>
      count = playersCount ∧ st = statusOf count
  | _ => True
  end.

(** A participant with a display name and a colour of the palette. *)
Definition presentable (p : Player) : Prop :=
  name p ≠ "" ∧ color p ∈ playerColors.

(** A cell that is either free, without occupant and without colour, or
    held, with an occupant and a colour of the palette. *)
Definition freeOrHeld (c : HexCell) : Prop :=
  (selectedBy c = "" ∧ cellColor c = "")
  ∨ (selectedBy c ≠ "" ∧ cellColor c ∈ playerColors).

(** A string without a comma. *)
Fixpoint commaFree (s : string) : Prop :=
  match s with
  | EmptyString => True
  | String c s' => String c EmptyString ≠ "," ∧ commaFree s'
  end.

End GameRoom.

(* ===================================================================== *)
(** * The hexagon scene *)
(* ===================================================================== *)

Module HexScene.

(** [type AxialCoordinate]. *)
Record AxialCoordinate := mkAxial {
  q : Z;
  r : Z
}.

#[global] Instance AxialCoordinate_eq_dec : EqDecision AxialCoordinate.
Proof. solve_decision. Defined.

(** [generateAxialRadius]: the two nested loops run over the integers
    from [-radius] to [radius]; the distance is half a sum of absolute
    values, compared as a rational. *)
Definition generateAxialRadius (radius : Z) : list AxialCoordinate :=
  q ← seqZ (- radius) (2 * radius + 1);
  r ← seqZ (- radius) (2 * radius + 1);
  let x := q in
  let z := r in
  let y := - x - z in
  let dist := (inject_Z (Z.abs x + Z.abs y + Z.abs z) / 2)%Q in
  if Qle_bool dist (inject_Z radius) then [mkAxial q r] else [].

(** The key under which the room keeps the cell of a coordinate. *)
Definition keyOf (c : AxialCoordinate) : string := GameRoom.hexKey (q c) (r c).

End HexScene.


(* ===================================================================== *)
(** * The connection hook *)
(* ===================================================================== *)

Module UseColyseus.

(** ** Data *)

(** [type ConnectionStatus]. *)
Inductive ConnectionStatus :=
| Disconnected | Connecting | Connected | Error | Reconnecting.

Definition statusEqb (a b : ConnectionStatus) : bool :=
  match a, b with
  | Disconnected, Disconnected | Connecting, Connecting
  | Connected, Connected | Error, Error | Reconnecting, Reconnecting => true
  | _, _ => false
  end.

(** [interface ColyseusHookOptions], after the destructuring with defaults
    ([reconnect] is bound to the local name [autoReconnect]). *)
Record HookOptions := mkOptions {
  autoReconnect : bool;
  reconnectInterval : Z;
  maxReconnectAttempts : Z
}.

Definition defaultOptions : HookOptions := mkOptions false 10000 3.

(** What the hook sees of a joined [Room]. *)
Record RoomInstance := mkRoom {
  roomSessionId : string;
  roomId : string
}.

#[global] Instance RoomInstance_eq_dec : EqDecision RoomInstance.
Proof. solve_decision. Defined.

(** [new Client(WS_URL)]. *)
Inductive Client := NewClient.

Record ChatLine := mkChat {
  chatSessionId : string;
  chatMessage : string;
  chatTimestamp : Z
}.

(** The [state] object kept by the hook; a field absent from the object is
    [None]. *)
Record View := mkView {
  viewPlayers : option (gmap string GameRoom.Player);
  viewGameStatus : option string;
  viewPlayerCount : option nat
}.

(** Messages a room delivers to its listeners. *)
Inductive ServerMessage :=
| MsgWelcome
| MsgChat (line : ChatLine)
| MsgStateUpdate (count : nat) (gameStatus : string) (playersCount : nat)
| MsgPlayerUpdate (roster : gmap string GameRoom.Player)
| MsgHexUpdate (hq hr : Z) (by_ colour playerName : string).

(** The second argument of [sendMessage]. *)
Inductive MessageData :=
| NoData
| Text (s : string)
| Position (mx my : Z)
| Hex (mq mr : Z).

(** The closures handed to [setTimeout]. *)
Inductive Task :=
| ResetFailureCount   (* circuit breaker: after [waitTime] *)
| BackoffElapsed      (* [resolve] of the delay awaited inside [connect] *)
| ReconnectTimer      (* body of the timer of [scheduleReconnect] *)
| ManualTimer.        (* body of the timer of [manualReconnect] *)

(** Lines written to the console. *)
Inductive LogLine :=
| LogCleaningUp
| LogAlreadyInProgress
| LogReconnectionDisabled
| LogRateLimiting (remaining : Z)
| LogCircuitBreaker (waitTime : Z)
| LogWaiting (delayMs : Q) (attempt : Z)
| LogConnectingTo
| LogFailedToConnect (err : option string)
| LogConnectionFailed (recentFailures : Z)
| LogSchedulingReconnect (attempt max : Z)
| LogNoAutoReconnect
| LogReconnectingIn (interval : Z)
| LogRoomError (code : Z) (message : string)
| LogLeftRoom (code : Z)
| LogManualDisconnect
| LogManualReconnect
| LogInitialConnection
| LogUnmounting.

(** What the hook does to the outside world. *)
Inductive Effect :=
| Console (l : LogLine)
| ConsoleWarn (text : string)
| JoinOrCreate
| RoomLeave (r : RoomInstance)
| RoomSend (r : RoomInstance) (type : string) (data : MessageData)
| EventBusEmit (hq hr : Z) (by_ colour : string).

(** The [useRef] cells. *)
Record Refs := mkRefs {
  clientRef : option Client;
  roomRef : option RoomInstance;
  reconnectTimeoutRef : option nat;
  reconnectAttemptsRef : Z;
  isConnectingRef : bool;
  shouldReconnectRef : bool;
  lastConnectionAttemptRef : Z;
  connectionFailureCountRef : Z
}.

(** The [useState] cells. *)
Record Ui := mkUi {
  room : option RoomInstance;
  state : option View;
  connectionStatus : ConnectionStatus;
  error : option string;
  sessionId : option string;
  messages : list ChatLine
}.

(** The JavaScript environment of the hook: the clock read by [Date.now],
    the timers set and not yet fired or cleared, the next timer handle,
    the number of [joinOrCreate] promises not yet settled, the rooms whose
    listeners are attached, and what the hook has done so far. *)
Record Env := mkEnv {
  clock : Z;
  timers : gmap nat (Q * Task);
  nextTimer : nat;
  pendingJoins : nat;
  listening : list RoomInstance;
  output : list Effect
}.

Record World := mkWorld {
  refs : Refs;
  ui : Ui;
  env : Env
}.

(** ** Assignments *)

Definition set_clientRef (v : option Client) (w : World) : World :=
  let r := refs w in
  mkWorld (mkRefs v (roomRef r) (reconnectTimeoutRef r) (reconnectAttemptsRef r)
             (isConnectingRef r) (shouldReconnectRef r)
             (lastConnectionAttemptRef r) (connectionFailureCountRef r))
          (ui w) (env w).

Definition set_roomRef (v : option RoomInstance) (w : World) : World :=
  let r := refs w in
  mkWorld (mkRefs (clientRef r) v (reconnectTimeoutRef r) (reconnectAttemptsRef r)
             (isConnectingRef r) (shouldReconnectRef r)
             (lastConnectionAttemptRef r) (connectionFailureCountRef r))
          (ui w) (env w).

Definition set_reconnectTimeoutRef (v : option nat) (w : World) : World :=
  let r := refs w in
  mkWorld (mkRefs (clientRef r) (roomRef r) v (reconnectAttemptsRef r)
             (isConnectingRef r) (shouldReconnectRef r)
             (lastConnectionAttemptRef r) (connectionFailureCountRef r))
          (ui w) (env w).

Definition set_reconnectAttemptsRef (v : Z) (w : World) : World :=
  let r := refs w in
  mkWorld (mkRefs (clientRef r) (roomRef r) (reconnectTimeoutRef r) v
             (isConnectingRef r) (shouldReconnectRef r)
             (lastConnectionAttemptRef r) (connectionFailureCountRef r))
          (ui w) (env w).

Definition set_isConnectingRef (v : bool) (w : World) : World :=
  let r := refs w in
  mkWorld (mkRefs (clientRef r) (roomRef r) (reconnectTimeoutRef r)
             (reconnectAttemptsRef r) v (shouldReconnectRef r)
             (lastConnectionAttemptRef r) (connectionFailureCountRef r))
          (ui w) (env w).

Definition set_shouldReconnectRef (v : bool) (w : World) : World :=
  let r := refs w in
  mkWorld (mkRefs (clientRef r) (roomRef r) (reconnectTimeoutRef r)
             (reconnectAttemptsRef r) (isConnectingRef r) v
             (lastConnectionAttemptRef r) (connectionFailureCountRef r))
          (ui w) (env w).

Definition set_lastConnectionAttemptRef (v : Z) (w : World) : World :=
  let r := refs w in
  mkWorld (mkRefs (clientRef r) (roomRef r) (reconnectTimeoutRef r)
             (reconnectAttemptsRef r) (isConnectingRef r) (shouldReconnectRef r)
             v (connectionFailureCountRef r))
          (ui w) (env w).

Definition set_connectionFailureCountRef (v : Z) (w : World) : World :=
  let r := refs w in
  mkWorld (mkRefs (clientRef r) (roomRef r) (reconnectTimeoutRef r)
             (reconnectAttemptsRef r) (isConnectingRef r) (shouldReconnectRef r)
             (lastConnectionAttemptRef r) v)
          (ui w) (env w).

Definition setRoom (v : option RoomInstance) (w : World) : World :=
  let u := ui w in
  mkWorld (refs w)
          (mkUi v (state u) (connectionStatus u) (error u) (sessionId u) (messages u))
          (env w).

Definition setState (v : option View) (w : World) : World :=
  let u := ui w in
  mkWorld (refs w)
          (mkUi (room u) v (connectionStatus u) (error u) (sessionId u) (messages u))
          (env w).

Definition setConnectionStatus (v : ConnectionStatus) (w : World) : World :=
  let u := ui w in
  mkWorld (refs w)
          (mkUi (room u) (state u) v (error u) (sessionId u) (messages u))
          (env w).

Definition setError (v : option string) (w : World) : World :=
  let u := ui w in
  mkWorld (refs w)
          (mkUi (room u) (state u) (connectionStatus u) v (sessionId u) (messages u))
          (env w).

Definition setSessionId (v : option string) (w : World) : World :=
  let u := ui w in
  mkWorld (refs w)
          (mkUi (room u) (state u) (connectionStatus u) (error u) v (messages u))
          (env w).

Definition setMessages (v : list ChatLine) (w : World) : World :=
  let u := ui w in
  mkWorld (refs w)
          (mkUi (room u) (state u) (connectionStatus u) (error u) (sessionId u) v)
          (env w).

(** ** The environment's primitives *)

Definition emit (e : Effect) (w : World) : World :=
  let v := env w in
  mkWorld (refs w) (ui w)
          (mkEnv (clock v) (timers v) (nextTimer v) (pendingJoins v)
                 (listening v) (output v ++ [e])).

Definition log (l : LogLine) (w : World) : World := emit (Console l) w.

(** [setTimeout(task, delay)]: the handle and the world with the timer
    pending. *)
Definition setTimeout (task : Task) (delay : Q) (w : World) : nat * World :=
  let v := env w in
  let id := nextTimer v in
  (id,
   mkWorld (refs w) (ui w)
           (mkEnv (clock v)
                  (<[id := ((inject_Z (clock v) + delay)%Q, task)]> (timers v))
                  (S id) (pendingJoins v) (listening v) (output v))).

(** [clearTimeout(id)]. *)
Definition clearTimeout (id : nat) (w : World) : World :=
  let v := env w in
  mkWorld (refs w) (ui w)
          (mkEnv (clock v) (delete id (timers v)) (nextTimer v)
                 (pendingJoins v) (listening v) (output v)).

(** [clientRef.current.joinOrCreate(roomName, roomOptions)]: one more
    promise to be settled by the environment. *)
Definition joinOrCreate (w : World) : World :=
  let w := emit JoinOrCreate w in
  let v := env w in
  mkWorld (refs w) (ui w)
          (mkEnv (clock v) (timers v) (nextTimer v) (S (pendingJoins v))
                 (listening v) (output v)).

(** The listeners of a joined room are attached. *)
Definition listen (r : RoomInstance) (w : World) : World :=
  let v := env w in
  mkWorld (refs w) (ui w)
          (mkEnv (clock v) (timers v) (nextTimer v) (pendingJoins v)
                 (r :: listening v) (output v)).

(** ** cleanup *)

Definition cleanup (w : World) : World :=
  let w := log LogCleaningUp w in
  let w := set_shouldReconnectRef false w in
  let w := match reconnectTimeoutRef (refs w) with
           | Some id => set_reconnectTimeoutRef None (clearTimeout id w)
           | None => w
           end in
  let w := match roomRef (refs w) with
           | Some r => set_roomRef None (emit (RoomLeave r) w)
           | None => w
           end in
  let w := match clientRef (refs w) with
           | Some _ => set_clientRef None w
           | None => w
           end in
  let w := setRoom None w in
  let w := setState None w in
  let w := setSessionId None w in
  let w := setMessages [] w in
  set_isConnectingRef false w.

(** ** connect *)

(** [Math.min(2000 * Math.pow(1.5, n), 15000)].  The rationals are exact
    here: the powers of 1.5 below the cap are binary fractions that a
    double holds exactly, and above it the minimum is the cap. *)
Definition backoffDelay (n : Z) : Q := Qmin (2000 * (3 # 2) ^ n) 15000.

(** [connect] from the delay (if any) to the call of [joinOrCreate], where
    it is suspended until the promise settles. *)
Definition connectResume (w : World) : World :=
  let w := match roomRef (refs w) with
           | Some r => emit (RoomLeave r) w
           | None => w
           end in
  let w := log LogConnectingTo w in
  let w := set_clientRef (Some NewClient) w in
  joinOrCreate w.

(** [connect] from its call to its first suspension or return.
    [Date.now()] is the clock of the environment. *)
Definition connect (w : World) : World :=
  let now := clock (env w) in
  if isConnectingRef (refs w) then log LogAlreadyInProgress w
  else if negb (shouldReconnectRef (refs w)) then log LogReconnectionDisabled w
  else
    let timeSinceLastAttempt := now - lastConnectionAttemptRef (refs w) in
    if timeSinceLastAttempt <? 5000
    then log (LogRateLimiting (5000 - timeSinceLastAttempt)) w
    else if 3 <=? connectionFailureCountRef (refs w) then
      let waitTime :=
        Z.min (connectionFailureCountRef (refs w) * 10000) 60000 in
      let w := log (LogCircuitBreaker waitTime) w in
      snd (setTimeout ResetFailureCount (inject_Z waitTime) w)
    else
      let w := set_lastConnectionAttemptRef now w in
      let w := set_isConnectingRef true w in
      let w := setConnectionStatus Connecting w in
      let w := setError None w in
      if 0 <? reconnectAttemptsRef (refs w) then
        let delayMs := backoffDelay (reconnectAttemptsRef (refs w)) in
        let w := log (LogWaiting delayMs (reconnectAttemptsRef (refs w) + 1)) w in
        snd (setTimeout BackoffElapsed delayMs w)
      else connectResume w.

(** ** scheduleReconnect *)

Definition scheduleReconnect (o : HookOptions) (w : World) : World :=
  if bool_decide (is_Some (reconnectTimeoutRef (refs w)))
     || negb (shouldReconnectRef (refs w))
  then w
  else
    let w := set_reconnectAttemptsRef (reconnectAttemptsRef (refs w) + 1) w in
    let w := setConnectionStatus Reconnecting w in
    let w := log (LogReconnectingIn (reconnectInterval o)) w in
    let '(id, w) := setTimeout ReconnectTimer (inject_Z (reconnectInterval o)) w in
    set_reconnectTimeoutRef (Some id) w.

(** ** The continuations of connect *)

(** [needle] occurs in [hay]: [hay.includes(needle)]. *)
Fixpoint includes (needle hay : string) : bool :=
  String.prefix needle hay
  || match hay with
     | EmptyString => false
     | String _ hay' => includes needle hay'
     end.

(** The message shown for a rejection; [err] is [Some message] for an
    instance of [Error], [None] for any other thrown value. *)
Definition errorMessage (err : option string) : string :=
  match err with
  | Some message =>
      if includes "ERR_INSUFFICIENT_RESOURCES" message
      then "Server overloaded or sleeping (Render free tier). Try again in a moment."
      else if includes "ERR_NETWORK" message
      then "Network error - check your internet connection"
      else if includes "ERR_CONNECTION_REFUSED" message
      then "Connection refused - server may be down"
      else message
  | None => "Connection failed"
  end.

(** The [catch] and [finally] blocks: [joinOrCreate] was rejected. *)
Definition connectRejected (o : HookOptions) (err : option string)
    (w : World) : World :=
  let w := log (LogFailedToConnect err) w in
  let w := setError (Some (errorMessage err)) w in
  let w := setConnectionStatus Error w in
  let w := set_connectionFailureCountRef
             (connectionFailureCountRef (refs w) + 1) w in
  let w := log (LogConnectionFailed (connectionFailureCountRef (refs w))) w in
  let w :=
    if autoReconnect o && shouldReconnectRef (refs w)
       && (reconnectAttemptsRef (refs w) <? maxReconnectAttempts o)
    then
      let w := log (LogSchedulingReconnect (reconnectAttemptsRef (refs w) + 1)
                      (maxReconnectAttempts o)) w in
      scheduleReconnect o w
    else log LogNoAutoReconnect w in
  set_isConnectingRef false w.

Definition defaultView : View := mkView (Some ∅) (Some "waiting") (Some 0%nat).

(** The rest of the [try] block and [finally]: [joinOrCreate] resolved
    with [roomInstance]. *)
Definition connectResolved (roomInstance : RoomInstance) (w : World) : World :=
  if negb (shouldReconnectRef (refs w)) then
    let w := emit (RoomLeave roomInstance) w in
    set_isConnectingRef false w
  else
    let w := set_roomRef (Some roomInstance) w in
    let w := setRoom (Some roomInstance) w in
    let w := setSessionId (Some (roomSessionId roomInstance)) w in
    let w := setConnectionStatus Connected w in
    let w := set_reconnectAttemptsRef 0 w in
    let w := set_connectionFailureCountRef 0 w in
    let w := setState (Some defaultView) w in
    let w := listen roomInstance w in
    set_isConnectingRef false w.

(** ** The listeners attached to a joined room *)

(** [roomInstance.onError]. *)
Definition onError (code : Z) (message : string) (w : World) : World :=
  let w := log (LogRoomError code message) w in
  let w := setError
             (Some ("Room error: " ++ message ++ " (" ++ pretty code ++ ")")) w in
  setConnectionStatus Error w.

(** [roomInstance.onLeave]. *)
Definition onLeave (o : HookOptions) (code : Z) (w : World) : World :=
  let w := log (LogLeftRoom code) w in
  let w := setConnectionStatus Disconnected w in
  let w := set_roomRef None w in
  let w := setRoom None w in
  if autoReconnect o && shouldReconnectRef (refs w)
     && negb (code =? 1000)
     && (reconnectAttemptsRef (refs w) <? maxReconnectAttempts o)
  then
    let w := log (LogSchedulingReconnect (reconnectAttemptsRef (refs w) + 1)
                    (maxReconnectAttempts o)) w in
    scheduleReconnect o w
  else w.

(** [{...prevState, ...}]: the fields of the previous object, if any. *)
Definition spread (prev : option View) : View :=
  match prev with
  | Some v => v
  | None => mkView None None None
  end.

(** [roomInstance.onMessage]. *)
Definition onMessage (m : ServerMessage) (w : World) : World :=
  match m with
  | MsgWelcome => w
  | MsgChat line => setMessages (messages (ui w) ++ [line]) w
  | MsgStateUpdate count gameStatus _ =>
      let prev := spread (state (ui w)) in
      setState (Some (mkView (viewPlayers prev) (Some gameStatus) (Some count))) w
  | MsgPlayerUpdate roster =>
      let prev := spread (state (ui w)) in
      setState (Some (mkView (Some roster) (viewGameStatus prev)
                             (viewPlayerCount prev))) w
  | MsgHexUpdate hq hr by_ colour _ => emit (EventBusEmit hq hr by_ colour) w
  end.

(** ** What the hook returns *)

Definition sendMessage (type : string) (data : MessageData) (w : World) : World :=
  match roomRef (refs w) with
  | Some r =>
      if statusEqb (connectionStatus (ui w)) Connected
      then emit (RoomSend r type data) w
      else emit (ConsoleWarn "Cannot send message: room not connected") w
  | None => emit (ConsoleWarn "Cannot send message: room not connected") w
  end.

Definition disconnect (w : World) : World :=
  let w := log LogManualDisconnect w in
  let w := set_shouldReconnectRef false w in
  let w := setConnectionStatus Disconnected w in
  cleanup w.

Definition manualReconnect (w : World) : World :=
  let w := log LogManualReconnect w in
  let w := set_reconnectAttemptsRef 0 w in
  let w := set_connectionFailureCountRef 0 w in
  let w := set_shouldReconnectRef true w in
  let w := cleanup w in
  snd (setTimeout ManualTimer 500 w).

(** The effect run on mount and its clean-up run on unmount. *)
Definition mount (w : World) : World :=
  let w := set_shouldReconnectRef true w in
  let w := log LogInitialConnection w in
  connect w.

Definition unmount (w : World) : World :=
  let w := log LogUnmounting w in
  cleanup w.

(** ** The event loop *)

(** The body of a timer. *)
Definition runTask (t : Task) (w : World) : World :=
  match t with
  | ResetFailureCount => set_connectionFailureCountRef 0 w
  | BackoffElapsed => connectResume w
  | ReconnectTimer =>
      let w := set_reconnectTimeoutRef None w in
      if shouldReconnectRef (refs w) then connect w else w
  | ManualTimer =>
      if shouldReconnectRef (refs w) then connect w else w
  end.

(** What can happen to a mounted hook. *)
Inductive Event :=
| TimerFires (id : nat)
| JoinResolves (roomInstance : RoomInstance)
| JoinRejects (err : option string)
| RoomError (r : RoomInstance) (code : Z) (message : string)
| RoomLeft (r : RoomInstance) (code : Z)
| RoomMessage (r : RoomInstance) (m : ServerMessage)
| ClickReconnect
| ClickDisconnect
| CallSendMessage (type : string) (data : MessageData)
| Remount
| Unmount.

Definition setClock (now : Z) (w : World) : World :=
  let v := env w in
  mkWorld (refs w) (ui w)
          (mkEnv now (timers v) (nextTimer v) (pendingJoins v)
                 (listening v) (output v)).

Definition settleJoin (w : World) : World :=
  let v := env w in
  mkWorld (refs w) (ui w)
          (mkEnv (clock v) (timers v) (nextTimer v) (pred (pendingJoins v))
                 (listening v) (output v)).

Definition unlisten (r : RoomInstance) (w : World) : World :=
  let v := env w in
  mkWorld (refs w) (ui w)
          (mkEnv (clock v) (timers v) (nextTimer v) (pendingJoins v)
                 (list_difference (listening v) [r]) (output v)).

(** One turn of the event loop at time [now]: [None] when the event cannot
    happen (the clock does not run backwards, a timer fires only if it is
    pending and due, a promise settles only if one is pending, a room
    speaks only while its listeners are attached). *)
Definition step (o : HookOptions) (w : World) (now : Z) (e : Event)
    : option World :=
  if now <? clock (env w) then None
  else
    let w := setClock now w in
    match e with
    | TimerFires id =>
        match timers (env w) !! id with
        | Some (due, task) =>
            (* a timer that fires is no longer pending *)
            if Qle_bool due (inject_Z now)
            then Some (runTask task (clearTimeout id w))
            else None
        | None => None
        end
    | JoinResolves roomInstance =>
        if (0 <? pendingJoins (env w))%nat
        then Some (connectResolved roomInstance (settleJoin w))
        else None
    | JoinRejects err =>
        if (0 <? pendingJoins (env w))%nat
        then Some (connectRejected o err (settleJoin w))
        else None
    | RoomError r code message =>
        if bool_decide (r ∈ listening (env w))
        then Some (onError code message w)
        else None
    | RoomLeft r code =>
        if bool_decide (r ∈ listening (env w))
        then Some (onLeave o code (unlisten r w))
        else None
    | RoomMessage r m =>
        if bool_decide (r ∈ listening (env w))
        then Some (onMessage m w)
        else None
    | ClickReconnect => Some (manualReconnect w)
    | ClickDisconnect => Some (disconnect w)
    | CallSendMessage type data => Some (sendMessage type data w)
    | Remount => Some (mount w)
    | Unmount => Some (unmount w)
    end.

Fixpoint run (o : HookOptions) (w : World) (es : list (Z * Event))
    : option World :=
  match es with
  | [] => Some w
  | (now, e) :: es' =>
      match step o w now e with
      | Some w' => run o w' es'
      | None => None
      end
  end.

(** The hook before its first effect runs, at time [now]. *)
Definition initial (now : Z) : World :=
  mkWorld (mkRefs None None None 0 false true 0 0)
          (mkUi None None Disconnected None None [])
          (mkEnv now ∅ 1 0 [] []).

(** The hook once mounted at time [now]: the initial connection attempt
    has been requested. *)
Definition mounted (now : Z) : World := mount (initial now).

(** ** Observations *)

Definition isJoinOrCreate (e : Effect) : bool :=
  match e with JoinOrCreate => true | _ => false end.

(** The number of connection attempts made so far. *)
Definition attemptsMade (w : World) : nat :=
  length (List.filter isJoinOrCreate (output (env w))).

(** [connect] would pass its four guards. *)
Definition admits (w : World) : bool :=
  negb (isConnectingRef (refs w))
  && shouldReconnectRef (refs w)
  && negb (clock (env w) - lastConnectionAttemptRef (refs w) <? 5000)
  && negb (3 <=? connectionFailureCountRef (refs w)).

(** The assignments with which [connect] opens an attempt once it has
    passed its guards. *)
Definition opened (w : World) : World :=
  let w := set_lastConnectionAttemptRef (clock (env w)) w in
  let w := set_isConnectingRef true w in
  let w := setConnectionStatus Connecting w in
  setError None w.

(** Events that need nobody: a timer fires, a connection attempt fails. *)
Definition isAutomatic (e : Z * Event) : bool :=
  match snd e with
  | TimerFires _ | JoinRejects _ => true
  | _ => false
  end.

(** Where a hook left to itself with a failing server can be: at rest,
    cooling down after the circuit breaker opened, waiting for the
    reconnect timer, waiting out the backoff delay, or waiting for
    [joinOrCreate] to settle. *)
Definition unattended (w : World) : Prop :=
  let T := timers (env w) in
  let P := pendingJoins (env w) in
  let F := connectionFailureCountRef (refs w) in
  let J := Z.of_nat (attemptsMade w) in
  (T = ∅ ∧ P = 0%nat ∧ J ≤ 3)
  ∨ (∃ id due, T = {[id := (due, ResetFailureCount)]} ∧ P = 0%nat ∧ J ≤ 3)
  ∨ (∃ id due, T = {[id := (due, ReconnectTimer)]} ∧ P = 0%nat ∧ J = F ∧ F ≤ 3)
  ∨ (∃ id due, T = {[id := (due, BackoffElapsed)]} ∧ P = 0%nat ∧ J = F ∧ F ≤ 2)
  ∨ (T = ∅ ∧ P = 1%nat ∧ J = F + 1 ∧ F ≤ 2).

(** The last attempt was opened at [lo] or later, and it is [lo] or later. *)
Definition attemptedSince (lo : Z) (w : World) : Prop :=
  lo ≤ lastConnectionAttemptRef (refs w) ∧ lo ≤ clock (env w).

(** From [w] to [w'] the clock stands still and the time of the last
    attempt is kept or becomes the present time. *)
Definition keepsAttempt (w w' : World) : Prop :=
  clock (env w') = clock (env w)
  ∧ (lastConnectionAttemptRef (refs w') = lastConnectionAttemptRef (refs w)
     ∨ lastConnectionAttemptRef (refs w') = clock (env w)).

(** ** Worked runs *)

(** Automatic reconnection switched on, the other options at their
    defaults. *)
Definition autoOptions : HookOptions := mkOptions true 10000 3.

(** Mounted at time 1000000 against a server that rejects every attempt
    after 100 ms: the first attempt fails, then twice the reconnect timer
    fires after 10 s, the backoff delay passes (3 s, then 4.5 s) and the
    attempt fails; the timer that fires after the third failure is 5. *)
Definition threeFailures : list (Z * Event) :=
  [(1000100, JoinRejects None);
   (1010100, TimerFires 1); (1013100, TimerFires 2);
   (1013200, JoinRejects None);
   (1023200, TimerFires 3); (1027700, TimerFires 4);
   (1027800, JoinRejects None)].

(** The hook after these three failures, and as it is when the reconnect
    timer set by the third failure has fired and is about to call
    [connect]. *)
Definition afterThreeFailures : World :=
  default (initial 0) (run autoOptions (mounted 1000000) threeFailures).

Definition beforeFourth : World :=
  set_reconnectTimeoutRef None
    (clearTimeout 5 (setClock 1037800 afterThreeFailures)).

(** The hook with default options after its first attempt, made at time
    1000000, has failed. *)
Definition afterFirstFailure : World :=
  default (initial 0)
    (run defaultOptions (connect (initial 1000000)) [(1000100, JoinRejects None)]).

(** The first attempt fails; ten seconds later the user asks for a
    reconnect, and the timer set by that request fires 500 ms later. *)
Definition retryClicked : list (Z * Event) :=
  [(1000100, JoinRejects None);
   (1010000, ClickReconnect);
   (1010500, TimerFires 1)].

(** The hook with automatic reconnection after its first attempt has
    failed, and as it is when the reconnect timer has fired ten seconds
    later and is about to call [connect] for the first retry. *)
Definition afterFirstAutoFailure : World :=
  default (initial 0)
    (run autoOptions (mounted 1000000) [(1000100, JoinRejects None)]).

Definition beforeRetry : World :=
  set_reconnectTimeoutRef None
    (clearTimeout 1 (setClock 1010100 afterFirstAutoFailure)).

(** The first attempt fails and the reconnect timer fires ten seconds
    later: the first reconnect attempt is under way. *)
Definition firstRetry : list (Z * Event) :=
  [(1000100, JoinRejects None); (1010100, TimerFires 1)].

(** A hook whose first attempt has succeeded. *)
Definition online : World :=
  default (initial 0)
    (run defaultOptions (mounted 1000000)
       [(1000200, JoinResolves (mkRoom "s1" "r1"))]).

(** ** The WebSocket URL *)

(** The [source] of a configuration. *)
Inductive Source :=
| Environment | AutoDetectLocal | AutoDetectRender | Fallback.

(** What [getWebSocketConfig] reads of [window.location]. *)
Record Location := mkLocation {
  protocol : string;
  hostname : string
}.

Record WebSocketConfig := mkConfig {
  url : string;
  source : Source
}.

(** [s] without its first [n] characters. *)
Fixpoint skip (n : nat) (s : string) : string :=
  match n, s with
  | O, _ => s
  | S _, EmptyString => EmptyString
  | S n', String _ s' => skip n' s'
  end.

(** [s.replace(search, replacement)] for a string [search]: the first
    occurrence is replaced ([replacement] holds no [$] pattern here). *)
Fixpoint replaceFirst (search replacement s : string) : string :=
  if String.prefix search s
  then replacement ++ skip (String.length search) s
  else match s with
       | EmptyString => EmptyString
       | String c s' => String c (replaceFirst search replacement s')
       end.

(** [getWebSocketConfig]: [NEXT_PUBLIC_WS_URL] is the environment
    variable, if set; [window] is [None] outside a browser. *)
Definition getWebSocketConfig (NEXT_PUBLIC_WS_URL : option string)
    (window : option Location) : WebSocketConfig :=
  if from_option GameRoom.truthy false NEXT_PUBLIC_WS_URL
  then mkConfig (default "" NEXT_PUBLIC_WS_URL) Environment
  else
    match window with
    | Some location =>
        let protocol :=
          if String.eqb (protocol location) "https:" then "wss:" else "ws:" in
        let hostname := hostname location in
        if String.eqb hostname "localhost" || String.eqb hostname "127.0.0.1"
        then mkConfig "ws://localhost:3003" AutoDetectLocal
        else if includes ".onrender.com" hostname then
          let baseName := replaceFirst ".onrender.com" "" hostname in
          mkConfig (protocol ++ "//" ++ baseName ++ "-websocket.onrender.com")
                   AutoDetectRender
        else mkConfig (protocol ++ "//" ++ hostname ++ ":3003") Fallback
    | None => mkConfig "ws://localhost:3003" Fallback
    end.

(** A string without a full stop. *)
Fixpoint dotFree (s : string) : Prop :=
  match s with
  | EmptyString => True
  | String c s' => String c EmptyString ≠ "." ∧ dotFree s'
  end.

(** ** More observations *)

(** Events in which the hook runs [cleanup]: the two buttons and the
    unmount. *)
Definition runsCleanup (e : Z * Event) : bool :=
  match snd e with
  | ClickReconnect | ClickDisconnect | Unmount => true
  | _ => false
  end.

Definition isRemount (e : Z * Event) : bool :=
  match snd e with
  | Remount => true
  | _ => false
  end.

(** Reconnection is switched off and no room is held, as [cleanup] leaves
    the hook. *)
Definition switchedOff (w : World) : Prop :=
  shouldReconnectRef (refs w) = false ∧ roomRef (refs w) = None.

(** No pending timer waits out a backoff delay. *)
Definition noBackoff (T : gmap nat (Q * Task)) : Prop :=
  ∀ id due, T !! id ≠ Some (due, BackoffElapsed).

(** At most one pending timer waits out a backoff delay. *)
Definition atMostOneBackoff (T : gmap nat (Q * Task)) : Prop :=
  ∀ id id' due due',
    T !! id = Some (due, BackoffElapsed) →
    T !! id' = Some (due', BackoffElapsed) → id = id'.

(** At most one connection attempt is under way, for [c] the value of
    [isConnectingRef], [P] the number of pending [joinOrCreate] promises
    and [T] the pending timers: at most one [joinOrCreate] is pending, at
    most one backoff delay is being waited out, never both, and neither
    while [isConnectingRef] is false. *)
Definition inFlight (c : bool) (P : nat) (T : gmap nat (Q * Task)) : Prop :=
  (P ≤ 1)%nat
  ∧ (c = false → P = 0%nat ∧ noBackoff T)
  ∧ (P = 1%nat → noBackoff T)
  ∧ atMostOneBackoff T.

Definition oneInFlight (w : World) : Prop :=
  inFlight (isConnectingRef (refs w)) (pendingJoins (env w)) (timers (env w)).

(** From [w] to [w'] reconnection stays switched off, no room is taken
    and no attempt is opened. *)
Definition staysOff (w w' : World) : Prop :=
  switchedOff w'
  ∧ lastConnectionAttemptRef (refs w') = lastConnectionAttemptRef (refs w).


(** A hook without automatic reconnection left to itself: no timer is
    pending and at most one attempt has been made. *)
Definition singleAttempt (w : World) : Prop :=
  timers (env w) = ∅
  ∧ ((pendingJoins (env w) = 0%nat ∧ (attemptsMade w ≤ 1)%nat)
     ∨ (pendingJoins (env w) = 1%nat ∧ attemptsMade w = 1%nat)).

(** ** More worked runs *)

(** The hook of [online] after the disconnect button. *)
Definition offline : World := disconnect online.

End UseColyseus.

(* ===================================================================== *)
(** * Properties of the room server *)
(* ===================================================================== *)

Module RoomProperties.
Import GameRoom.

(** ** Projections of the handlers *)

Example hexKey_examples : hexKey 0 0 = "0,0" ∧ hexKey (-3) 12 = "-3,12".
Proof. split; reflexivity. Qed.

Lemma onLeave_players sid s :
  players (fst (onLeave sid s)) = delete sid (players s).
Proof. unfold onLeave; cbv zeta. destruct (Nat.ltb _ 2); reflexivity. Qed.

Lemma onLeave_hexGrid sid s : hexGrid (fst (onLeave sid s)) = hexGrid s.
Proof. unfold onLeave; cbv zeta. destruct (Nat.ltb _ 2); reflexivity. Qed.

Lemma onLeave_playerCount sid s :
  playerCount (fst (onLeave sid s)) = size (delete sid (players s)).
Proof. unfold onLeave; cbv zeta. destruct (Nat.ltb _ 2); reflexivity. Qed.

Lemma onLeave_gameStatus sid s :
  gameStatus (fst (onLeave sid s)) =
  if (size (delete sid (players s)) <? 2)%nat then "waiting" else gameStatus s.
Proof. unfold onLeave; cbv zeta. destruct (Nat.ltb _ 2); reflexivity. Qed.

Lemma onJoin_players roomId sid n now s :
  players (fst (onJoin roomId sid n now s)) =
  <[sid := mkPlayer (playerName sid n) 0 0 "idle" now
             (playerColors !!! (size (players s) mod 8)%nat)]> (players s).
Proof. unfold onJoin; cbv zeta. destruct (Nat.leb 2 _); reflexivity. Qed.

Lemma onJoin_playerCount roomId sid n now s :
  playerCount (fst (onJoin roomId sid n now s)) =
  size (players (fst (onJoin roomId sid n now s))).
Proof. unfold onJoin; cbv zeta. destruct (Nat.leb 2 _); reflexivity. Qed.

Lemma onJoin_gameStatus roomId sid n now s :
  gameStatus (fst (onJoin roomId sid n now s)) =
  statusOf (playerCount (fst (onJoin roomId sid n now s))).
Proof.
  unfold onJoin, statusOf; cbv zeta.
  destruct (Nat.leb 2 _) eqn:Hle; cbn [fst playerCount set_gameStatus gameStatus];
    by rewrite Hle.
Qed.

(** ** hexSelect *)



(** The steal of the specification: Bob takes Alice's cell, and Alice's
    next hexSelect takes it back instead of deselecting it. *)
Example hexSelect_steal_back :
  let s1 := fst (onHexSelect "B" 0 0 duel) in
  let s2 := fst (onHexSelect "A" 0 0 s1) in
  hexGrid s1 !! "0,0" = Some (mkHexCell 0 0 "B" "#ef4444")
  ∧ hexGrid s2 !! "0,0" = Some (mkHexCell 0 0 "A" "#3b82f6")
  ∧ snd (onHexSelect "A" 0 0 s1) =
      [BroadcastHexUpdate 0 0 "A" "#3b82f6" "Alice"].
Proof. repeat split. Qed.

(** Selecting twice returns an unselected cell to its unselected state. *)
Example hexSelect_twice :
  let s0 := mkState (<["A" := alice]> ∅) (<["0,0" := origin]> ∅) "waiting" 1 in
  let s1 := fst (onHexSelect "A" 0 0 s0) in
  hexGrid s1 !! "0,0" = Some (mkHexCell 0 0 "A" "#3b82f6")
  ∧ hexGrid (fst (onHexSelect "A" 0 0 s1)) !! "0,0" = Some origin.
Proof. repeat split. Qed.

(** ** move and status *)

(** C8. A move or a status from an identity without a participant leaves
    the room exactly as it was and produces no outbound message; a move
    from a participant sets that participant's position to the given
    coordinates and its status to "moving", leaving its other fields, the
    other participants and the rest of the room alone. *)
Theorem move_status_unknown_sender (sid : string) (mx my : Z) (st : string)
    (s : MyState) :
  (players s !! sid = None →
     onMove sid mx my s = (s, []) ∧ onStatus sid st s = (s, []))
  ∧ (∀ p, players s !! sid = Some p →
       let s' := fst (onMove sid mx my s) in
       players s' !! sid =
         Some (mkPlayer (name p) mx my "moving" (joinedAt p) (color p))
       ∧ (∀ other, other ≠ sid → players s' !! other = players s !! other)
       ∧ hexGrid s' = hexGrid s
       ∧ gameStatus s' = gameStatus s
       ∧ playerCount s' = playerCount s
       ∧ snd (onMove sid mx my s) = []).
Proof.
  split.
  - intros Hnone. unfold onMove, onStatus. by rewrite Hnone.
  - intros p Hp. unfold onMove. rewrite Hp. simpl.
    repeat split; try done.
    + apply lookup_insert_eq.
    + intros other Hne. by apply lookup_insert_ne.
Qed.

Lemma move_status_unknown_sender_witness :
  (onMove "C" 3 4 duel = (duel, []) ∧ onStatus "C" "active" duel = (duel, []))
  ∧ players (fst (onMove "B" 3 4 duel)) !! "B" =
      Some (mkPlayer "Bob" 3 4 "moving" 2000 "#ef4444").
Proof.
  destruct (move_status_unknown_sender "C" 3 4 "active" duel) as [Hdrop _].
  destruct (move_status_unknown_sender "B" 3 4 "active" duel) as [_ Hmove].
  split.
  - apply Hdrop. reflexivity.
  - apply (Hmove bob). reflexivity.
Defined.

(** ** Count and status *)

Lemma statusOf_active (n : nat) : statusOf n = "active" ↔ (2 ≤ n)%nat.
Proof.
  unfold statusOf. destruct (Nat.leb_spec 2 n); split; try done; lia.
Qed.

Lemma statusOf_waiting (n : nat) : statusOf n = "waiting" ↔ (n < 2)%nat.
Proof.
  unfold statusOf. destruct (Nat.leb_spec 2 n); split; try done; lia.
Qed.

Lemma onCreate_consistent grid : consistent (onCreate grid).
Proof. split; reflexivity. Qed.

Lemma size_delete_le (sid : string) (m : gmap string Player) :
  (size (delete sid m) ≤ size m)%nat.
Proof. rewrite map_size_delete. destruct (m !! sid); simpl; lia. Qed.

Lemma onLeave_consistent sid s : consistent s → consistent (fst (onLeave sid s)).
Proof.
  intros [Hcount Hstatus]. split.
  - by rewrite onLeave_playerCount, onLeave_players.
  - rewrite onLeave_gameStatus, onLeave_playerCount.
    pose proof (size_delete_le sid (players s)) as Hle.
    unfold statusOf in *.
    destruct (Nat.ltb_spec (size (delete sid (players s))) 2) as [Hlt | Hge].
    + destruct (Nat.leb_spec 2 (size (delete sid (players s)))); [lia | done].
    + rewrite Hstatus, Hcount.
      destruct (Nat.leb_spec 2 (size (players s))); [| lia].
      destruct (Nat.leb_spec 2 (size (delete sid (players s)))); [done | lia].
Qed.

Lemma handle_consistent roomId s e :
  consistent s → consistent (fst (handle roomId s e)).
Proof.
  intros Hs. destruct e as [sid n now | sid | sid mx my | sid m now | sid st
                           | sid mq mr]; cbn [handle].
  - split; [apply onJoin_playerCount | apply onJoin_gameStatus].
  - by apply onLeave_consistent.
  - destruct Hs as [Hcount Hstatus]. unfold onMove.
    destruct (players s !! sid) as [p |] eqn:Hp; [| done].
    split; simpl; [| done].
    rewrite map_size_insert_Some; [done | by eexists].
  - done.
  - destruct Hs as [Hcount Hstatus]. unfold onStatus.
    destruct (players s !! sid) as [p |] eqn:Hp; [| done].
    split; simpl; [| done].
    rewrite map_size_insert_Some; [done | by eexists].
  - unfold onHexSelect.
    destruct (hexGrid s !! hexKey mq mr), (players s !! sid); done.
Qed.

Lemma run_consistent roomId es s :
  consistent s → consistent (run roomId s es).
Proof.
  revert s. induction es as [| e es IH]; intros s Hs; cbn [run]; [done |].
  apply IH. by apply handle_consistent.
Qed.

(** Joins add one participant and leaves remove one when identities do
    not overlap; the other messages keep the roster's size. *)
Lemma run_size roomId es s :
  noOverlap roomId s es = true →
  (size (players (run roomId s es)) + leaves es = size (players s) + joins es)%nat.
Proof.
  revert s. induction es as [| e es IH]; intros s Hok;
    cbn [run noOverlap] in *.
  { unfold leaves, joins; simpl; lia. }
  apply andb_prop in Hok as [He Hok]. specialize (IH _ Hok).
  unfold leaves, joins in *.
  destruct e as [sid n now | sid | sid mx my | sid m now | sid st | sid mq mr];
    cbn [handle List.filter isJoin isLeave length] in *.
  - apply negb_true_iff, bool_decide_eq_false in He.
    rewrite onJoin_players, map_size_insert_None in IH; [lia |].
    destruct (players s !! sid) eqn:Hp; [| done]. destruct He; by eexists.
  - apply bool_decide_eq_true in He.
    rewrite onLeave_players, map_size_delete_Some in IH by done.
    destruct He as [p Hp].
    assert (size (players s) ≠ 0%nat); [| lia].
    intros Hz. apply map_size_empty_inv in Hz. by rewrite Hz in Hp.
  - unfold onMove in *.
    destruct (players s !! sid) eqn:Hp; cbn [fst players set_players] in *; [| lia].
    rewrite map_size_insert_Some in IH; [lia | by eexists].
  - unfold onChat in *. cbn [fst] in *. lia.
  - unfold onStatus in *.
    destruct (players s !! sid) eqn:Hp; cbn [fst players set_players] in *; [| lia].
    rewrite map_size_insert_Some in IH; [lia | by eexists].
  - unfold onHexSelect in *.
    destruct (hexGrid s !! hexKey mq mr), (players s !! sid);
      cbn [fst players set_hexGrid] in *; lia.
Qed.

(** C3. From a fresh room, after every message of every run the count is
    the size of the roster and the status is "active" exactly when the
    count is at least two and "waiting" exactly when it is less; when the
    identities of a run do not overlap, the leaves are no more than the
    joins and the final count is the number of joins less the number of
    leaves. *)
Theorem join_leave_invariant (roomId : string) (grid : gmap string HexCell)
    (es pre : list Inbound) :
  pre `prefix_of` es →
  let s := run roomId (onCreate grid) pre in
  playerCount s = size (players s)
  ∧ (gameStatus s = "active" ↔ (2 ≤ playerCount s)%nat)
  ∧ (gameStatus s = "waiting" ↔ (playerCount s < 2)%nat)
  ∧ (noOverlap roomId (onCreate grid) es = true →
     (leaves es ≤ joins es)%nat
     ∧ playerCount (run roomId (onCreate grid) es) = (joins es - leaves es)%nat).
Proof.
  intros _ s.
  destruct (run_consistent roomId pre _ (onCreate_consistent grid))
    as [Hcount Hstatus].
  fold s in Hcount, Hstatus.
  repeat split; try done.
  - rewrite Hstatus. apply statusOf_active.
  - rewrite Hstatus. intros H. by apply statusOf_active.
  - rewrite Hstatus. apply statusOf_waiting.
  - rewrite Hstatus. intros H. by apply statusOf_waiting.
  - apply run_size in H. cbn [onCreate players set_gameStatus set_playerCount] in H.
    rewrite map_size_empty in H. lia.
  - destruct (run_consistent roomId es _ (onCreate_consistent grid)) as [-> _].
    apply run_size in H. cbn [onCreate players set_gameStatus set_playerCount] in H.
    rewrite map_size_empty in H. lia.
Qed.

(** Three join, one leaves: two remain and the game is active. *)
Lemma join_leave_invariant_witness :
  let s := run "room" (onCreate ∅) threeInOneOut in
  playerCount s = 2%nat ∧ gameStatus s = "active".
Proof.
  destruct (join_leave_invariant "room" ∅ threeInOneOut threeInOneOut)
    as (Hcount & Hactive & _ & Hdiff).
  - exists []. by rewrite app_nil_r.
  - destruct Hdiff as [_ Hn]; [reflexivity |].
    split; [exact Hn |].
    apply Hactive. rewrite Hn. vm_compute. lia.
Defined.

(** A second leave puts the room back to waiting. *)
Example leave_back_to_waiting :
  let s := run "room" (onCreate ∅) (threeInOneOut ++ [Leave "A"]) in
  playerCount s = 1%nat ∧ gameStatus s = "waiting".
Proof. split; reflexivity. Qed.

(** ** Leave *)

(** C9. A leave deletes the entry of the leaving identity and nothing
    else from the roster, sets the count to the new size of the roster and
    the status to "waiting" when fewer than two remain (which, in a room
    whose count and status agreed before, is the status derived from the
    new count), and does not touch the grid: every cell, those held by the
    leaver included, keeps its occupant and its colour. *)
Theorem onLeave_frame (sid : string) (s : MyState) :
  let s' := fst (onLeave sid s) in
  players s' = delete sid (players s)
  ∧ players s' !! sid = None
  ∧ (∀ other, other ≠ sid → players s' !! other = players s !! other)
  ∧ playerCount s' = size (players s')
  ∧ gameStatus s' =
      (if (playerCount s' <? 2)%nat then "waiting" else gameStatus s)
  ∧ (consistent s → gameStatus s' = statusOf (playerCount s'))
  ∧ hexGrid s' = hexGrid s
  ∧ (∀ k cell, hexGrid s !! k = Some cell → selectedBy cell = sid →
       hexGrid s' !! k = Some cell).
Proof.
  cbv zeta.
  split; [apply onLeave_players |].
  split; [rewrite onLeave_players; apply lookup_delete_eq |].
  split; [intros other Hne; rewrite onLeave_players; by apply lookup_delete_ne |].
  split; [by rewrite onLeave_playerCount, onLeave_players |].
  split; [by rewrite onLeave_gameStatus, onLeave_playerCount |].
  split; [intros Hs; by destruct (onLeave_consistent sid s Hs) |].
  split; [apply onLeave_hexGrid |].
  intros k cell Hk _. by rewrite onLeave_hexGrid.
Qed.

Lemma onLeave_frame_witness :
  hexGrid (fst (onLeave "A" duel)) !! "0,0" = Some (mkHexCell 0 0 "A" "#3b82f6").
Proof.
  destruct (onLeave_frame "A" duel) as (_ & _ & _ & _ & _ & _ & _ & Hghost).
  apply Hghost; reflexivity.
Defined.

(** P1 joins and takes the origin, P2 joins and takes it from P1, P1
    leaves: one participant is left, the game waits, and the cell is still
    P2's. *)
Example end_to_end :
  let s := run "room" (onCreate (<["0,0" := origin]> ∅)) endToEnd in
  playerCount s = 1%nat
  ∧ gameStatus s = "waiting"
  ∧ hexGrid s !! "0,0" = Some (mkHexCell 0 0 "P2" "#ef4444")
  ∧ assignedColors "room" (onCreate (<["0,0" := origin]> ∅)) endToEnd
      = [Some "#3b82f6"; Some "#ef4444"].
Proof. by vm_compute. Qed.

(** ** Colours *)

Lemma onJoin_color roomId sid n now s :
  color <$> players (fst (onJoin roomId sid n now s)) !! sid =
  Some (playerColors !!! (size (players s) mod 8)%nat).
Proof. by rewrite onJoin_players, lookup_insert_eq. Qed.

Lemma assignedColors_joins roomId es : ∀ s k,
  forallb isJoin es = true →
  noOverlap roomId s es = true →
  (k < length es)%nat →
  assignedColors roomId s es !! k =
    Some (Some (playerColors !!! ((size (players s) + k) mod 8)%nat)).
Proof.
  induction es as [| e es IH]; intros s k Hjoins Hok Hk;
    cbn [forallb noOverlap assignedColors length] in *; [lia |].
  apply andb_prop in Hjoins as [He Hjoins].
  apply andb_prop in Hok as [Hfresh Hok].
  destruct e as [sid n now | | | | |]; try discriminate.
  cbn [handle] in *. destruct k as [| k]; cbn [lookup list_lookup].
  - rewrite onJoin_color. by rewrite Nat.add_0_r.
  - rewrite IH by (done || lia).
    rewrite onJoin_players, map_size_insert_None.
    + by replace (S (size (players s)) + k)%nat
        with (size (players s) + S k)%nat by lia.
    + apply negb_true_iff, bool_decide_eq_false in Hfresh.
      destruct (players s !! sid) eqn:Hp; [| done]. destruct Hfresh; by eexists.
Qed.

(** C2 (amended). A join gives the newcomer the palette entry indexed by
    the number of participants present just before it joins, modulo 8;
    hence in a fresh room where so far only joins of distinct identities
    have happened the k-th joiner (from 0) receives entry k mod 8. *)
Theorem color_by_current_count (roomId : string) (grid : gmap string HexCell)
    (es : list Inbound) (k : nat) :
  (∀ sid n now s,
      color <$> players (fst (onJoin roomId sid n now s)) !! sid =
      Some (playerColors !!! (size (players s) mod 8)%nat))
  ∧ (forallb isJoin es = true →
     noOverlap roomId (onCreate grid) es = true →
     (k < length es)%nat →
     assignedColors roomId (onCreate grid) es !! k =
       Some (Some (playerColors !!! (k mod 8)%nat))).
Proof.
  split.
  - intros. apply onJoin_color.
  - intros Hjoins Hok Hk.
    by rewrite (assignedColors_joins roomId es (onCreate grid) k).
Qed.

(** The ninth joiner is given the first colour again. *)
Lemma color_by_current_count_witness :
  assignedColors "room" (onCreate ∅) nineJoins !! 8%nat = Some (Some "#3b82f6").
Proof.
  destruct (color_by_current_count "room" ∅ nineJoins 8) as [_ Hk].
  apply Hk.
  - reflexivity.
  - vm_compute. reflexivity.
  - vm_compute. lia.
Defined.

(** The second participant ever to join (number 1) arrives after the
    first has left: it is given entry 0 of the palette, not entry 1. *)
Lemma color_not_by_join_order :
  let es := [Join "A" None 1; Leave "A"; Join "B" None 2] in
  noOverlap "room" (onCreate ∅) es = true
  ∧ assignedColors "room" (onCreate ∅) es !! 1%nat = Some (Some "#3b82f6")
  ∧ playerColors !!! (1 mod 8)%nat = "#ef4444"
  ∧ assignedColors "room" (onCreate ∅) es !! 1%nat
      ≠ Some (Some (playerColors !!! (1 mod 8)%nat)).
Proof. vm_compute. repeat split; discriminate. Qed.

End RoomProperties.

(* ===================================================================== *)
(** * Properties of the connection hook *)
(* ===================================================================== *)

Module HookProperties.
Import UseColyseus.

(** ** Projections of the primitives *)

Lemma attemptsMade_emit e w :
  attemptsMade (emit e w) =
  (attemptsMade w + if isJoinOrCreate e then 1 else 0)%nat.
Proof.
  unfold attemptsMade, emit; simpl.
  rewrite List.filter_app, length_app; simpl.
  by destruct (isJoinOrCreate e).
Qed.

Lemma attemptsMade_log l w : attemptsMade (log l w) = attemptsMade w.
Proof. unfold log. rewrite attemptsMade_emit; simpl. lia. Qed.

Lemma attemptsMade_connectResume w :
  attemptsMade (connectResume w) = S (attemptsMade w).
Proof.
  unfold connectResume, joinOrCreate, attemptsMade.
  destruct (roomRef (refs w)); simpl;
    rewrite !List.filter_app, !length_app; simpl; lia.
Qed.

(** ** The four ways through connect *)

Lemma connect_cases w :
  let now := clock (env w) in
  let F := connectionFailureCountRef (refs w) in
  let n := reconnectAttemptsRef (refs w) in
  (admits w = false ∧ F < 3 ∧ ∃ l, connect w = log l w)
  ∨ (3 ≤ F ∧
     ((∃ l, connect w = log l w)
      ∨ (isConnectingRef (refs w) = false ∧ shouldReconnectRef (refs w) = true
         ∧ 5000 ≤ now - lastConnectionAttemptRef (refs w)
         ∧ connect w =
             snd (setTimeout ResetFailureCount (inject_Z (Z.min (F * 10000) 60000))
                    (log (LogCircuitBreaker (Z.min (F * 10000) 60000)) w)))))
  ∨ (admits w = true ∧ F < 3 ∧ 0 < n ∧
     connect w =
       snd (setTimeout BackoffElapsed (backoffDelay n)
              (log (LogWaiting (backoffDelay n) (n + 1)) (opened w))))
  ∨ (admits w = true ∧ F < 3 ∧ n ≤ 0 ∧ connect w = connectResume (opened w)).
Proof.
  cbv zeta. unfold connect, admits.
  assert (∀ l, ∃ l', log l w = log l' w) as Hdrop by (intros l; by exists l).
  destruct (isConnectingRef (refs w)) eqn:Hc; cbn [negb andb].
  { destruct (Z.leb_spec 3 (connectionFailureCountRef (refs w)));
      [right; left; split; [done | left; apply Hdrop]
      | left; split; [done | split; [done | apply Hdrop]]]. }
  destruct (shouldReconnectRef (refs w)) eqn:Hs; cbn [negb andb].
  2: { destruct (Z.leb_spec 3 (connectionFailureCountRef (refs w)));
         [right; left; split; [done | left; apply Hdrop]
         | left; split; [done | split; [done | apply Hdrop]]]. }
  destruct (Z.ltb_spec (clock (env w) - lastConnectionAttemptRef (refs w)) 5000);
    cbn [negb andb].
  { destruct (Z.leb_spec 3 (connectionFailureCountRef (refs w)));
      [right; left; split; [done | left; apply Hdrop]
      | left; split; [done | split; [done | apply Hdrop]]]. }
  destruct (Z.leb_spec 3 (connectionFailureCountRef (refs w))); cbn [negb andb].
  { right; left. split; [done |]. right. done. }
  right; right.
  destruct (Z.ltb_spec 0 (reconnectAttemptsRef (refs w))) as [Hn | Hn];
    [left | right]; (split; [done | split; [done | split; [done |]]]).
  - match goal with |- (if ?c then _ else _) = _ =>
      replace c with true by (symmetry; apply Z.ltb_lt; exact Hn) end.
    reflexivity.
  - match goal with |- (if ?c then _ else _) = _ =>
      replace c with false by (symmetry; apply Z.ltb_ge; exact Hn) end.
    reflexivity.
Qed.

Lemma connectRejected_shape o err w :
  let w' := connectRejected o err w in
  connectionFailureCountRef (refs w') = connectionFailureCountRef (refs w) + 1
  ∧ attemptsMade w' = attemptsMade w
  ∧ pendingJoins (env w') = pendingJoins (env w)
  ∧ (timers (env w') = timers (env w)
     ∨ ∃ id due, timers (env w') = <[id := (due, ReconnectTimer)]> (timers (env w))).
Proof.
  cbv zeta. unfold connectRejected, scheduleReconnect, attemptsMade. cbn.
  repeat case_match; cbn;
    rewrite ?List.filter_app, ?length_app; cbn;
    repeat split; try lia; eauto.
Qed.

Lemma unattended_connect w :
  timers (env w) = ∅ →
  pendingJoins (env w) = 0%nat →
  Z.of_nat (attemptsMade w) = connectionFailureCountRef (refs w) →
  connectionFailureCountRef (refs w) ≤ 3 →
  unattended (connect w).
Proof.
  intros HT HP HJ HF. unfold unattended.
  destruct (connect_cases w) as
    [(_ & _ & l & ->) | [(_ & [(l & ->) | (_ & _ & _ & ->)])
    | [(_ & Hlt & _ & ->) | (_ & Hlt & _ & ->)]]].
  - left. rewrite attemptsMade_log. simpl. repeat split; try done; lia.
  - left. rewrite attemptsMade_log. simpl. repeat split; try done; lia.
  - right; left. simpl. rewrite HT.
    eexists _, _. split; [reflexivity |]. split; [done |].
    change (Z.of_nat (attemptsMade (log (LogCircuitBreaker (Z.min (connectionFailureCountRef (refs w) * 10000) 60000)) w)) ≤ 3).
    rewrite attemptsMade_log. lia.
  - do 3 right; left. simpl. rewrite HT.
    eexists _, _. split; [reflexivity |]. split; [done |].
    split; [| lia].
    rewrite <- HJ. f_equal. unfold attemptsMade; simpl.
    rewrite List.filter_app, length_app; simpl. lia.
  - do 4 right. rewrite attemptsMade_connectResume.
    unfold connectResume. destruct (roomRef (refs (opened w))) eqn:Hr; simpl in *.
    all: repeat split; try done; try lia.
    all: unfold attemptsMade in *; simpl in *; lia.
Qed.

Lemma unattended_attempts w : unattended w → (attemptsMade w ≤ 3)%nat.
Proof.
  unfold unattended.
  intros [(_ & _ & H) | [(? & ? & _ & _ & H) | [(? & ? & _ & _ & H & ?)
    | [(? & ? & _ & _ & H & ?) | (_ & _ & H & ?)]]]]; lia.
Qed.

Lemma unattended_backoff w id due :
  unattended w →
  timers (env w) !! id = Some (due, BackoffElapsed) →
  (attemptsMade w ≤ 2)%nat.
Proof.
  unfold unattended.
  intros [(HT & _) | [(? & ? & HT & _) | [(? & ? & HT & _)
    | [(? & ? & HT & _ & HJ & HF) | (HT & _)]]]] Hid;
    rewrite HT in Hid;
    try (rewrite lookup_empty in Hid; discriminate);
    apply lookup_singleton_Some in Hid as [_ Htask];
    try congruence.
  lia.
Qed.

Lemma unattended_mounted now : unattended (mounted now).
Proof.
  unfold mounted, mount. apply unattended_connect; reflexivity || done.
Qed.

Lemma unattended_step o w now e w' :
  unattended w →
  isAutomatic (now, e) = true →
  step o w now e = Some w' →
  unattended w'.
Proof.
  intros Hw Hauto Hstep. unfold step in Hstep.
  destruct (now <? clock (env w)); [discriminate |].
  destruct e as [id | | err | | | | | | | |]; try discriminate; clear Hauto.
  - (* a timer fires *)
    cbn [timers env setClock] in Hstep.
    destruct (timers (env w) !! id) as [[due task] |] eqn:Hid; [| discriminate].
    destruct (Qle_bool due (inject_Z now)); [| discriminate].
    injection Hstep as <-.
    destruct Hw as [(HT & _) | [(id0 & due0 & HT & HP & HJ)
      | [(id0 & due0 & HT & HP & HJ & HF)
      | [(id0 & due0 & HT & HP & HJ & HF) | (HT & _)]]]];
      rewrite HT in Hid;
      try (rewrite lookup_empty in Hid; discriminate);
      apply lookup_singleton_Some in Hid as [-> [= <- <-]].
    + left. cbn. rewrite HT, delete_singleton_eq. done.
    + cbn [runTask].
      match goal with |- unattended (if ?b then _ else _) => destruct b end.
      * apply unattended_connect; cbn; rewrite ?HT, ?delete_singleton_eq; try done.
      * left. cbn. rewrite HT, delete_singleton_eq. repeat split; try done.
        unfold attemptsMade in *; cbn in *; lia.
    + do 4 right. cbn [runTask]. rewrite attemptsMade_connectResume.
      unfold connectResume.
      destruct (roomRef _); cbn; rewrite HT, delete_singleton_eq;
        repeat split; try done; unfold attemptsMade in *; cbn in *; lia.
  - (* joinOrCreate is rejected *)
    cbn [pendingJoins env setClock] in Hstep.
    destruct (0 <? pendingJoins (env w))%nat eqn:Hpos; [| discriminate].
    injection Hstep as <-.
    apply Nat.ltb_lt in Hpos.
    destruct Hw as [(_ & HP & _) | [(? & ? & _ & HP & _)
      | [(? & ? & _ & HP & _) | [(? & ? & _ & HP & _) | (HT & HP & HJ & HF)]]]];
      try lia.
    destruct (connectRejected_shape o err (settleJoin (setClock now w)))
      as (HF' & HJ' & HP' & [HT' | (id & due & HT')]);
      cbn [settleJoin setClock env refs timers pendingJoins
             connectionFailureCountRef] in *.
    all: change (attemptsMade (settleJoin (setClock now w)))
           with (attemptsMade w) in HJ'.
    all: rewrite HP in HP'; cbn [pred] in HP'.
    + left. rewrite HT', HP', HT, HJ'. repeat split; try done. lia.
    + right; right; left. exists id, due.
      rewrite HT', HP', HT, HJ', HF'. repeat split; try done; lia.
Qed.

Lemma unattended_run o es : ∀ w w',
  unattended w →
  forallb isAutomatic es = true →
  run o w es = Some w' →
  unattended w'.
Proof.
  induction es as [| [now e] es IH]; intros w w' Hw Hauto Hrun;
    cbn [run forallb] in *.
  - by injection Hrun as <-.
  - apply andb_prop in Hauto as [He Hes].
    destruct (step o w now e) as [w1 |] eqn:Hstep; [| discriminate].
    eapply IH; [| done | done]. by eapply unattended_step.
Qed.

Lemma keepsAttempt_refl w : keepsAttempt w w.
Proof. split; auto. Qed.

Lemma keepsAttempt_trans w1 w2 w3 :
  keepsAttempt w1 w2 → keepsAttempt w2 w3 → keepsAttempt w1 w3.
Proof.
  unfold keepsAttempt. intros [Hc1 H1] [Hc2 H2]. split; [congruence |].
  destruct H2 as [H2 | H2]; [| right; congruence].
  destruct H1 as [H1 | H1]; [left | right]; congruence.
Qed.

Ltac keeps_by_cases :=
  unfold keepsAttempt; cbn; repeat case_match; cbn; auto.

Lemma cleanup_keepsAttempt w : keepsAttempt w (cleanup w).
Proof. unfold cleanup, log. keeps_by_cases. Qed.

Lemma connectResume_keepsAttempt w : keepsAttempt w (connectResume w).
Proof. unfold connectResume, joinOrCreate, log. keeps_by_cases. Qed.

Lemma connect_keepsAttempt w : keepsAttempt w (connect w).
Proof.
  destruct (connect_cases w) as
    [(_ & _ & l & ->) | [(_ & [(l & ->) | (_ & _ & _ & ->)])
    | [(_ & _ & _ & ->) | (_ & _ & _ & ->)]]]; by keeps_by_cases.
Qed.

Lemma scheduleReconnect_keepsAttempt o w : keepsAttempt w (scheduleReconnect o w).
Proof. unfold scheduleReconnect, log. keeps_by_cases. Qed.

Lemma connectRejected_keepsAttempt o err w :
  keepsAttempt w (connectRejected o err w).
Proof. unfold connectRejected, scheduleReconnect, log. keeps_by_cases. Qed.

Lemma connectResolved_keepsAttempt r w : keepsAttempt w (connectResolved r w).
Proof. unfold connectResolved, listen. keeps_by_cases. Qed.

Lemma onLeave_keepsAttempt o code w : keepsAttempt w (onLeave o code w).
Proof. unfold onLeave, scheduleReconnect, log. keeps_by_cases. Qed.

Lemma manualReconnect_keepsAttempt w : keepsAttempt w (manualReconnect w).
Proof.
  unfold manualReconnect.
  eapply keepsAttempt_trans;
    [eapply keepsAttempt_trans; [| apply cleanup_keepsAttempt] |];
    keeps_by_cases.
Qed.

Lemma disconnect_keepsAttempt w : keepsAttempt w (disconnect w).
Proof.
  unfold disconnect.
  eapply keepsAttempt_trans; [| apply cleanup_keepsAttempt]. keeps_by_cases.
Qed.

Lemma mount_keepsAttempt w : keepsAttempt w (mount w).
Proof.
  unfold mount.
  eapply keepsAttempt_trans; [| apply connect_keepsAttempt]. keeps_by_cases.
Qed.

Lemma unmount_keepsAttempt w : keepsAttempt w (unmount w).
Proof.
  unfold unmount.
  eapply keepsAttempt_trans; [| apply cleanup_keepsAttempt]. keeps_by_cases.
Qed.

Lemma runTask_keepsAttempt t w : keepsAttempt w (runTask t w).
Proof.
  destruct t; cbn [runTask].
  - keeps_by_cases.
  - apply connectResume_keepsAttempt.
  - case_match; [| keeps_by_cases].
    eapply keepsAttempt_trans; [| apply connect_keepsAttempt]. keeps_by_cases.
  - case_match; [apply connect_keepsAttempt | apply keepsAttempt_refl].
Qed.

Lemma attemptedSince_keeps lo w w' :
  attemptedSince lo w → keepsAttempt w w' → attemptedSince lo w'.
Proof. unfold attemptedSince, keepsAttempt. intros [? ?] [-> [-> | ->]]; done. Qed.

Lemma attemptedSince_step lo o w now e w' :
  attemptedSince lo w →
  step o w now e = Some w' →
  attemptedSince lo w'.
Proof.
  intros [Hlast Hclock] Hstep. unfold step in Hstep.
  destruct (Z.ltb_spec now (clock (env w))); [discriminate |].
  assert (attemptedSince lo (setClock now w)) as Hnow
    by (split; cbn; lia).
  assert (∀ v, attemptedSince lo (clearTimeout v (setClock now w))) as Hclear
    by (split; cbn; lia).
  assert (attemptedSince lo (settleJoin (setClock now w))) as Hsettle
    by (split; cbn; lia).
  assert (∀ r, attemptedSince lo (unlisten r (setClock now w))) as Hunlisten
    by (split; cbn; lia).
  destruct e as [id | r | err | r code message | r code | r m | | | type data | |].
  - destruct (timers (env (setClock now w)) !! id) as [[due task] |];
      [| discriminate].
    destruct (Qle_bool due (inject_Z now)); [| discriminate].
    injection Hstep as <-.
    eapply attemptedSince_keeps; [apply Hclear | apply runTask_keepsAttempt].
  - destruct (0 <? pendingJoins (env (setClock now w)))%nat; [| discriminate].
    injection Hstep as <-.
    eapply attemptedSince_keeps; [apply Hsettle | apply connectResolved_keepsAttempt].
  - destruct (0 <? pendingJoins (env (setClock now w)))%nat; [| discriminate].
    injection Hstep as <-.
    eapply attemptedSince_keeps; [apply Hsettle | apply connectRejected_keepsAttempt].
  - destruct (bool_decide (r ∈ listening (env (setClock now w)))); [| discriminate].
    injection Hstep as <-. exact Hnow.
  - destruct (bool_decide (r ∈ listening (env (setClock now w)))); [| discriminate].
    injection Hstep as <-.
    eapply attemptedSince_keeps; [apply Hunlisten | apply onLeave_keepsAttempt].
  - destruct (bool_decide (r ∈ listening (env (setClock now w)))); [| discriminate].
    injection Hstep as <-. destruct m; exact Hnow.
  - injection Hstep as <-.
    eapply attemptedSince_keeps; [apply Hnow | apply manualReconnect_keepsAttempt].
  - injection Hstep as <-.
    eapply attemptedSince_keeps; [apply Hnow | apply disconnect_keepsAttempt].
  - injection Hstep as <-. unfold sendMessage.
    destruct (roomRef (refs (setClock now w))); [| exact Hnow].
    destruct (statusEqb _ _); exact Hnow.
  - injection Hstep as <-.
    eapply attemptedSince_keeps; [apply Hnow | apply mount_keepsAttempt].
  - injection Hstep as <-.
    eapply attemptedSince_keeps; [apply Hnow | apply unmount_keepsAttempt].
Qed.

Lemma attemptedSince_run lo o es : ∀ w w',
  attemptedSince lo w →
  run o w es = Some w' →
  attemptedSince lo w'.
Proof.
  induction es as [| [now e] es IH]; intros w w' Hw Hrun; cbn [run] in *.
  - by injection Hrun as <-.
  - destruct (step o w now e) as [w1 |] eqn:Hstep; [| discriminate].
    eapply IH; [| done]. by eapply attemptedSince_step.
Qed.

(** ** sendMessage *)

(** C10. Whatever the type and the payload, sendMessage hands the message
    to the room when the status is connected and a room is held, and in
    every other case only writes a warning to the console; either way the
    hook's cells, timers and pending attempts are as before. *)
Theorem sendMessage_only_when_connected (type : string) (data : MessageData)
    (w : World) :
  let w' := sendMessage type data w in
  refs w' = refs w ∧ ui w' = ui w
  ∧ timers (env w') = timers (env w)
  ∧ pendingJoins (env w') = pendingJoins (env w)
  ∧ match roomRef (refs w), connectionStatus (ui w) with
    | Some r, Connected =>
        output (env w') = (output (env w) ++ [RoomSend r type data])%list
    | _, _ =>
        output (env w') =
          (output (env w)
             ++ [ConsoleWarn "Cannot send message: room not connected"])%list
    end.
Proof.
  unfold sendMessage.
  destruct (roomRef (refs w)) as [r |]; [| done].
  destruct (connectionStatus (ui w)); done.
Qed.

Example sendMessage_online :
  connectionStatus (ui online) = Connected
  ∧ output (env (sendMessage "hexSelect" (Hex 0 0) online)) =
      (output (env online) ++ [RoomSend (mkRoom "s1" "r1") "hexSelect" (Hex 0 0)])%list.
Proof. by vm_compute. Qed.

Example sendMessage_while_reconnecting :
  connectionStatus (ui beforeRetry) = Reconnecting
  ∧ output (env (sendMessage "hexSelect" (Hex 0 0) beforeRetry)) =
      (output (env beforeRetry)
         ++ [ConsoleWarn "Cannot send message: room not connected"])%list.
Proof. by vm_compute. Qed.

(** ** Backoff *)

Lemma backoffDelay_capped (n : Z) : 5 ≤ n → (backoffDelay n == 15000)%Q.
Proof.
  intros Hn. unfold backoffDelay. apply Q.min_r.
  apply Qle_trans with (2000 * (3 # 2) ^ 5)%Q; [by vm_compute |].
  apply Qmult_le_l; [reflexivity |].
  apply Qpower_le_compat_l; [exact Hn | by vm_compute].
Qed.

Lemma admitted_cases w :
  admits w = true →
  let n := reconnectAttemptsRef (refs w) in
  (0 < n ∧
   connect w =
     snd (setTimeout BackoffElapsed (backoffDelay n)
            (log (LogWaiting (backoffDelay n) (n + 1)) (opened w))))
  ∨ (n ≤ 0 ∧ connect w = connectResume (opened w)).
Proof.
  intros Hadm. cbv zeta.
  destruct (connect_cases w) as
    [(Hno & _) | [(HF & _) | [(_ & _ & Hn & Hc) | (_ & _ & Hn & Hc)]]];
    [congruence | | by left | by right].
  unfold admits in Hadm. apply andb_prop in Hadm as [_ Hadm].
  apply negb_true_iff, Z.leb_gt in Hadm. lia.
Qed.

(** The delay [connect] applies is computed from the reconnect-attempt
    count it finds: with a count n of at least 1 the call of joinOrCreate
    waits min(2000 * 1.5^n, 15000) milliseconds, 3000, 4500, 6750, 10125
    for n = 1..4 and 15000 from n = 5 on; with the count 0 of the initial
    attempt joinOrCreate is called in the same turn. *)
Theorem backoff_delay (w : World) :
  admits w = true →
  let n := reconnectAttemptsRef (refs w) in
  (0 < n →
     timers (env (connect w)) =
       <[nextTimer (env w) :=
           ((inject_Z (clock (env w)) + backoffDelay n)%Q, BackoffElapsed)]>
         (timers (env w))
     ∧ attemptsMade (connect w) = attemptsMade w
     ∧ attemptsMade (runTask BackoffElapsed (connect w)) = S (attemptsMade w))
  ∧ (n ≤ 0 →
     timers (env (connect w)) = timers (env w)
     ∧ attemptsMade (connect w) = S (attemptsMade w))
  ∧ backoffDelay n = Qmin (2000 * (3 # 2) ^ n) 15000
  ∧ (backoffDelay 1 == 3000 ∧ backoffDelay 2 == 4500 ∧ backoffDelay 3 == 6750
     ∧ backoffDelay 4 == 10125 ∧ backoffDelay 5 == 15000)%Q
  ∧ (5 ≤ n → (backoffDelay n == 15000)%Q).
Proof.
  intros Hadm n. pose proof (admitted_cases w Hadm) as Hcases.
  fold n in Hcases.
  split; [| split; [| split; [reflexivity | split;
    [by vm_compute | apply backoffDelay_capped]]]].
  - intros Hn. destruct Hcases as [[_ ->] | [Hle _]]; [| lia].
    split; [reflexivity |].
    cbn [runTask]. rewrite attemptsMade_connectResume.
    split; [| f_equal]; unfold attemptsMade; cbn;
      rewrite List.filter_app, length_app; cbn; lia.
  - intros Hn. destruct Hcases as [[Hlt _] | [_ ->]]; [lia |].
    rewrite attemptsMade_connectResume. unfold connectResume.
    destruct (roomRef (refs (opened w))); done.
Qed.

Lemma backoff_delay_witness :
  timers (env (connect beforeRetry)) =
    <[2%nat := ((inject_Z 1010100 + backoffDelay 1)%Q, BackoffElapsed)]> ∅
  ∧ (backoffDelay 1 == 3000)%Q.
Proof.
  destruct (backoff_delay beforeRetry) as (Hwait & _ & _ & (H1 & _) & _).
  - reflexivity.
  - split; [| exact H1]. apply Hwait. reflexivity.
Defined.

(** By the time the reconnect timer calls [connect], [scheduleReconnect]
    has raised the count: nothing else stands between the two. *)
Lemma scheduleReconnect_counts o w :
  reconnectTimeoutRef (refs w) = None →
  shouldReconnectRef (refs w) = true →
  reconnectAttemptsRef (refs (scheduleReconnect o w))
  = reconnectAttemptsRef (refs w) + 1.
Proof.
  intros Hnone Hs. unfold scheduleReconnect. rewrite Hnone, Hs.
  rewrite bool_decide_eq_false_2 by (by intros [? ?]).
  reflexivity.
Qed.

(** C7. The first reconnect attempt of a hook with automatic
    reconnection waits 3000 ms, not the 2000 ms of attempt number 0:
    [scheduleReconnect] raises the reconnect-attempt count to 1 before the
    reconnect timer calls [connect], which computes the delay from that
    count.  After the first failure and the reconnect timer the count is
    1, one attempt has been made, and the only pending timer is the
    backoff delay, due 3000 ms after the call; it cannot fire 2000 ms
    after the call, and when it fires at 3000 ms the second attempt is
    made.  The delays are those of the formula one step ahead: 3000,
    4500, 6750 for the first three reconnect attempts. *)
Theorem first_retry_waits_3000 :
  ∃ w due,
    run autoOptions (mounted 1000000) firstRetry = Some w
    ∧ reconnectAttemptsRef (refs w) = 1
    ∧ attemptsMade w = 1%nat
    ∧ timers (env w) = {[2%nat := (due, BackoffElapsed)]}
    ∧ (due == inject_Z 1010100 + 3000)%Q
    ∧ (Qmin (2000 * (3 # 2) ^ 0) 15000 == 2000)%Q
    ∧ step autoOptions w (1010100 + 2000) (TimerFires 2) = None
    ∧ attemptsMade <$> step autoOptions w (1010100 + 3000) (TimerFires 2)
      = Some 2%nat
    ∧ (backoffDelay 1 == 3000 ∧ backoffDelay 2 == 4500
       ∧ backoffDelay 3 == 6750)%Q.
Proof.
  eexists _, _. split; [vm_compute; reflexivity |].
  split; [reflexivity |]. split; [reflexivity |].
  split; [vm_compute; reflexivity |].
  repeat split; by vm_compute.
Qed.

(** ** The circuit breaker *)

Lemma connect_refused v :
  3 ≤ connectionFailureCountRef (refs v) →
  refs (connect v) = refs v ∧ ui (connect v) = ui v
  ∧ pendingJoins (env (connect v)) = pendingJoins (env v)
  ∧ attemptsMade (connect v) = attemptsMade v.
Proof.
  intros HF.
  destruct (connect_cases v) as
    [(_ & Hlt & _) | [(_ & [(l & ->) | (_ & _ & _ & ->)])
    | [(_ & Hlt & _) | (_ & Hlt & _)]]]; try lia.
  - by rewrite attemptsMade_log.
  - repeat split. unfold attemptsMade; cbn.
    rewrite List.filter_app, length_app; cbn; lia.
Qed.

Lemma connect_cooldown v :
  3 ≤ connectionFailureCountRef (refs v) →
  isConnectingRef (refs v) = false →
  shouldReconnectRef (refs v) = true →
  5000 ≤ clock (env v) - lastConnectionAttemptRef (refs v) →
  timers (env (connect v)) =
    <[nextTimer (env v) :=
        ((inject_Z (clock (env v))
          + inject_Z (Z.min (connectionFailureCountRef (refs v) * 10000) 60000))%Q,
         ResetFailureCount)]>
      (timers (env v)).
Proof.
  intros HF Hc Hs Hrate. unfold connect. rewrite Hc, Hs. cbn [negb].
  destruct (Z.ltb_spec (clock (env v) - lastConnectionAttemptRef (refs v)) 5000);
    [lia |].
  destruct (Z.leb_spec 3 (connectionFailureCountRef (refs v))); [| lia].
  reflexivity.
Qed.

Lemma reset_fires o u id due now u' :
  timers (env u) !! id = Some (due, ResetFailureCount) →
  step o u now (TimerFires id) = Some u' →
  (due <= inject_Z now)%Q
  ∧ connectionFailureCountRef (refs u') = 0
  ∧ ui u' = ui u
  ∧ timers (env u') = delete id (timers (env u))
  ∧ pendingJoins (env u') = pendingJoins (env u)
  ∧ output (env u') = output (env u).
Proof.
  intros Hid Hstep. unfold step in Hstep.
  destruct (now <? clock (env u)); [discriminate |].
  cbn [setClock env timers] in Hstep. rewrite Hid in Hstep.
  destruct (Qle_bool due (inject_Z now)) eqn:Hdue; [| discriminate].
  injection Hstep as <-. apply Qle_bool_iff in Hdue. done.
Qed.

(** C4. Left to itself against a server that rejects every attempt, the
    hook never makes more than three connection attempts, whatever its
    options (automatic reconnection with at most 3 attempts included) and
    whenever its timers fire; while an attempt waits out its backoff delay
    at most two have been made before it.  With three or more failures
    counted a call
    of connect opens no attempt and changes no cell of the hook; when the
    call gets as far as the breaker (no attempt in flight, reconnection
    allowed, five seconds since the last attempt) it sets one timer, due
    after 10 s per failure and at most 60 s.  When that timer fires, no
    earlier than due, the failure count becomes zero and nothing else
    happens: no attempt, no timer, no change of status. *)
Theorem circuit_breaker :
  (∀ o now0 es w,
      run o (mounted now0) es = Some w →
      forallb isAutomatic es = true →
      (attemptsMade w ≤ 3)%nat
      ∧ (∀ id due, timers (env w) !! id = Some (due, BackoffElapsed) →
           (attemptsMade w ≤ 2)%nat))
  ∧ (∀ v,
      3 ≤ connectionFailureCountRef (refs v) →
      refs (connect v) = refs v ∧ ui (connect v) = ui v
      ∧ pendingJoins (env (connect v)) = pendingJoins (env v)
      ∧ attemptsMade (connect v) = attemptsMade v
      ∧ (isConnectingRef (refs v) = false →
         shouldReconnectRef (refs v) = true →
         5000 ≤ clock (env v) - lastConnectionAttemptRef (refs v) →
         timers (env (connect v)) =
           <[nextTimer (env v) :=
               ((inject_Z (clock (env v))
                 + inject_Z
                     (Z.min (connectionFailureCountRef (refs v) * 10000) 60000))%Q,
                ResetFailureCount)]>
             (timers (env v))))
  ∧ (∀ o u id due now u',
      timers (env u) !! id = Some (due, ResetFailureCount) →
      step o u now (TimerFires id) = Some u' →
      (due <= inject_Z now)%Q
      ∧ connectionFailureCountRef (refs u') = 0
      ∧ ui u' = ui u
      ∧ timers (env u') = delete id (timers (env u))
      ∧ pendingJoins (env u') = pendingJoins (env u)
      ∧ output (env u') = output (env u)).
Proof.
  split; [| split].
  - intros o now0 es w Hrun Hauto.
    assert (unattended w) as Hw
      by (by eapply unattended_run; [apply unattended_mounted | |]).
    split; [by apply unattended_attempts |].
    intros id due. by apply unattended_backoff.
  - intros v HF.
    destruct (connect_refused v HF) as (Hrefs & Hui & HP & HJ).
    repeat split; try done. by apply connect_cooldown.
  - apply reset_fires.
Qed.

(** Three failures in a row with automatic reconnection and at most 3
    attempts: three attempts have been made, no more; the reconnect timer
    set after
    the third failure calls connect, which is refused with a cooldown of
    30 s; when the cooldown has passed the count is reset and the hook
    does nothing more. *)
Lemma circuit_breaker_witness :
  (attemptsMade afterThreeFailures ≤ 3)%nat
  ∧ attemptsMade afterThreeFailures = 3%nat
  ∧ timers (env (connect beforeFourth)) =
      <[6%nat := ((inject_Z 1037800 + inject_Z 30000)%Q, ResetFailureCount)]> ∅
  ∧ ∃ u',
      step autoOptions (connect beforeFourth) 1067800 (TimerFires 6) = Some u'
      ∧ connectionFailureCountRef (refs u') = 0
      ∧ output (env u') = output (env (connect beforeFourth)).
Proof.
  destruct circuit_breaker as (Hmax & Hopen & Hreset).
  split; [| split; [| split]].
  - apply (Hmax autoOptions 1000000 threeFailures).
    + vm_compute. reflexivity.
    + reflexivity.
  - vm_compute. reflexivity.
  - destruct (Hopen beforeFourth) as (_ & _ & _ & _ & Hcool).
    + vm_compute. discriminate.
    + apply Hcool.
      * reflexivity.
      * reflexivity.
      * vm_compute. discriminate.
  - destruct (step autoOptions (connect beforeFourth) 1067800 (TimerFires 6))
      as [u' |] eqn:Hstep.
    + exists u'. split; [reflexivity |].
      destruct (Hreset autoOptions (connect beforeFourth) 6%nat
                  (inject_Z 1037800 + inject_Z 30000)%Q 1067800 u')
        as (_ & HF & _ & _ & _ & Hout).
      * vm_compute. reflexivity.
      * exact Hstep.
      * split; [exact HF | exact Hout].
    + vm_compute in Hstep. discriminate.
Defined.

(** ** The rate limit *)

Lemma connect_opens w :
  admits w = true →
  isConnectingRef (refs (connect w)) = true
  ∧ connectionStatus (ui (connect w)) = Connecting
  ∧ lastConnectionAttemptRef (refs (connect w)) = clock (env w)
  ∧ clock (env (connect w)) = clock (env w).
Proof.
  intros Hadm.
  destruct (admitted_cases w Hadm) as [[_ ->] | [_ ->]]; [done |].
  unfold connectResume. destruct (roomRef (refs (opened w))); done.
Qed.

Lemma connect_in_window w :
  clock (env w) - lastConnectionAttemptRef (refs w) < 5000 →
  ∃ l, connect w = log l w.
Proof.
  intros Hwin. unfold connect.
  destruct (isConnectingRef (refs w)); [by eexists |].
  destruct (shouldReconnectRef (refs w)); cbn [negb]; [| by eexists].
  destruct (Z.ltb_spec (clock (env w) - lastConnectionAttemptRef (refs w)) 5000);
    [by eexists | lia].
Qed.

(** C6 (amended). When a call of connect opens an attempt, every call of
    connect made less than 5000 ms later, whatever has happened to the
    hook in between, is dropped on the spot: it writes one line to the
    console and changes nothing else, so no attempt is started, no timer
    is set and nothing is left to run later.  The window is counted from
    the last attempt opened (time 0 before the first), which is why the
    first of the two requests is one that opens an attempt. *)
Theorem rate_limit (o : HookOptions) (w : World) (es : list (Z * Event))
    (w2 : World) (t2 : Z) :
  admits w = true →
  run o (connect w) es = Some w2 →
  t2 - clock (env w) < 5000 →
  let first := connect w in
  let second := connect (setClock t2 w2) in
  (isConnectingRef (refs first) = true
   ∧ connectionStatus (ui first) = Connecting
   ∧ lastConnectionAttemptRef (refs first) = clock (env w))
  ∧ (∃ l, second = log l (setClock t2 w2))
  ∧ refs second = refs w2 ∧ ui second = ui w2
  ∧ timers (env second) = timers (env w2)
  ∧ pendingJoins (env second) = pendingJoins (env w2)
  ∧ attemptsMade second = attemptsMade w2.
Proof.
  intros Hadm Hrun Hwin first second.
  destruct (connect_opens w Hadm) as (Hc & Hs & Hlast & Hclock).
  split; [done |].
  assert (attemptedSince (clock (env w)) w2) as [Hsince _].
  { eapply attemptedSince_run; [| exact Hrun]. split; lia. }
  destruct (connect_in_window (setClock t2 w2)) as [l Hl].
  { cbn. lia. }
  subst second. rewrite Hl.
  split; [by exists l |]. rewrite attemptsMade_log. done.
Qed.

Lemma rate_limit_witness :
  ∃ l, connect (setClock 1002000 afterFirstFailure)
       = log l (setClock 1002000 afterFirstFailure).
Proof.
  destruct (rate_limit defaultOptions (initial 1000000)
              [(1000100, JoinRejects None)] afterFirstFailure 1002000)
    as (_ & Hdrop & _).
  - reflexivity.
  - vm_compute. reflexivity.
  - vm_compute. reflexivity.
  - exact Hdrop.
Defined.

(** Two requests less than 5000 ms apart of which the first is itself
    inside the window that starts at time 0.  A hook mounted at 4999 and
    mounted again at 5998: the first request is dropped and the second,
    999 ms later, opens the attempt.  A hook mounted at 0 and again at
    1000: neither request opens an attempt. *)
Lemma rate_limit_first_request_dropped :
  attemptsMade (mounted 4999) = 0%nat
  ∧ (∃ w,
       run defaultOptions (mounted 4999) [(5998, Remount)] = Some w
       ∧ attemptsMade w = 1%nat
       ∧ lastConnectionAttemptRef (refs w) = 5998
       ∧ connectionStatus (ui w) = Connecting
       ∧ pendingJoins (env w) = 1%nat)
  ∧ attemptsMade <$> run defaultOptions (mounted 0) [(1000, Remount)]
    = Some 0%nat.
Proof.
  split; [by vm_compute |]. split; [| by vm_compute].
  eexists. split; [by vm_compute |]. by vm_compute.
Qed.

(** Mounted twice within two seconds: one attempt. *)
Example remount_within_window :
  attemptsMade <$> run defaultOptions (mounted 1000000) [(1002000, Remount)]
  = Some 1%nat.
Proof. by vm_compute. Qed.

(** ** Manual reconnect *)

Lemma manualReconnect_shape w :
  let w1 := manualReconnect w in
  reconnectAttemptsRef (refs w1) = 0
  ∧ connectionFailureCountRef (refs w1) = 0
  ∧ shouldReconnectRef (refs w1) = false
  ∧ timers (env w1) !! nextTimer (env w)
    = Some ((inject_Z (clock (env w)) + 500)%Q, ManualTimer)
  ∧ connectionStatus (ui w1) = connectionStatus (ui w)
  ∧ pendingJoins (env w1) = pendingJoins (env w)
  ∧ attemptsMade w1 = attemptsMade w.
Proof.
  cbv zeta. unfold manualReconnect, cleanup, log, attemptsMade.
  destruct w as [[cl rm tm n c s F l] [? ? ? ? ? ?] [clk T nxt P L out]].
  destruct tm, rm, cl; cbn;
    rewrite lookup_insert_eq, ?List.filter_app, ?length_app; cbn;
    repeat split; lia.
Qed.

(** C5. A manual reconnect request sets the reconnect-attempt count and
    the consecutive-failure count to zero, and then never attempts: the
    request switches reconnection on and cleanup, called next, switches
    it off again, so when the 500 ms timer of the request fires, whenever
    that is, connect is not called.  No attempt is made, the hook does not
    pass through the connecting state (the status is the one before the
    request) and nothing is left pending; this holds for every hook and
    every time of the request, outside the rate-limit window too. *)
Theorem manualReconnect_never_attempts (o : HookOptions) (w : World) :
  let w1 := manualReconnect w in
  reconnectAttemptsRef (refs w1) = 0
  ∧ connectionFailureCountRef (refs w1) = 0
  ∧ shouldReconnectRef (refs w1) = false
  ∧ timers (env w1) !! nextTimer (env w)
    = Some ((inject_Z (clock (env w)) + 500)%Q, ManualTimer)
  ∧ ∀ now w2,
      step o w1 now (TimerFires (nextTimer (env w))) = Some w2 →
      attemptsMade w2 = attemptsMade w
      ∧ pendingJoins (env w2) = pendingJoins (env w)
      ∧ connectionStatus (ui w2) = connectionStatus (ui w)
      ∧ refs w2 = refs w1
      ∧ timers (env w2) = delete (nextTimer (env w)) (timers (env w1)).
Proof.
  cbv zeta.
  destruct (manualReconnect_shape w) as (Hn & HF & Hs & Hid & Hst & HP & HJ).
  repeat (split; [assumption |]).
  revert Hn HF Hs Hid Hst HP HJ. generalize (manualReconnect w) as w1.
  intros w1 Hn HF Hs Hid Hst HP HJ now w2 Hstep.
  unfold step in Hstep.
  destruct (now <? clock (env w1)); [discriminate |].
  cbn [setClock env timers] in Hstep. rewrite Hid in Hstep.
  destruct (Qle_bool _ _); [| discriminate].
  injection Hstep as <-. cbn [runTask].
  change (shouldReconnectRef
            (refs (clearTimeout (nextTimer (env w)) (setClock now w1))))
    with (shouldReconnectRef (refs w1)).
  rewrite Hs. rewrite <- HJ, <- HP, <- Hst. done.
Qed.

(** A retry is asked for ten seconds after the only attempt failed, well
    outside the rate-limit window.  When the 500 ms timer of the request
    fires connect is not called: no second attempt is made, the status is
    still the error of the first, and nothing is pending. *)
Lemma manualReconnect_never_attempts_witness :
  ∃ w2,
    step defaultOptions (manualReconnect (setClock 1010000 afterFirstFailure))
      1010500 (TimerFires 1) = Some w2
    ∧ attemptsMade w2 = 1%nat
    ∧ pendingJoins (env w2) = 0%nat
    ∧ connectionStatus (ui w2) = Error
    ∧ shouldReconnectRef (refs w2) = false.
Proof.
  destruct (manualReconnect_never_attempts defaultOptions
              (setClock 1010000 afterFirstFailure))
    as (_ & _ & Hs & _ & Hfire).
  destruct (step defaultOptions
              (manualReconnect (setClock 1010000 afterFirstFailure))
              1010500 (TimerFires 1)) as [w2 |] eqn:Hstep.
  - exists w2. split; [reflexivity |].
    destruct (Hfire 1010500 w2 Hstep) as (HJ & HP & Hst & Hrefs & _).
    rewrite HJ, HP, Hst, Hrefs. repeat split; try exact Hs; reflexivity.
  - vm_compute in Hstep. discriminate.
Defined.

(** The same from the mount on: the first attempt fails, the retry is
    asked for ten seconds later, its timer fires. *)
Example manualReconnect_run :
  ∃ w,
    run defaultOptions (mounted 1000000) retryClicked = Some w
    ∧ attemptsMade w = 1%nat
    ∧ connectionStatus (ui w) = Error
    ∧ isConnectingRef (refs w) = false
    ∧ shouldReconnectRef (refs w) = false
    ∧ timers (env w) = ∅
    ∧ pendingJoins (env w) = 0%nat.
Proof. eexists. split; [by vm_compute |]. by vm_compute. Qed.

End HookProperties.

(* ===================================================================== *)
(** * Further properties of the room server *)
(* ===================================================================== *)

Module RoomExtras.
Import GameRoom.

(** ** Names and colours *)

Lemma playerName_nonempty sid n : playerName sid n ≠ "".
Proof.
  unfold playerName. destruct n as [[| c n] |]; simpl; discriminate.
Qed.

Lemma paletteEntry_elem (i : nat) : playerColors !!! (i mod 8)%nat ∈ playerColors.
Proof.
  apply list_elem_of_lookup_total_2.
  change (length playerColors) with 8%nat. apply Nat.mod_upper_bound. lia.
Qed.

Lemma handle_presentable roomId s e :
  (∀ sid p, players s !! sid = Some p → presentable p) →
  ∀ sid p, players (fst (handle roomId s e)) !! sid = Some p → presentable p.
Proof.
  intros Hs sid p.
  destruct e as [sid' n now | sid' | sid' mx my | sid' m now | sid' st
                | sid' mq mr]; cbn [handle].
  - rewrite RoomProperties.onJoin_players.
    destruct (decide (sid' = sid)) as [-> | Hne].
    + rewrite lookup_insert_eq. intros [= <-]. split; cbn [name color].
      * apply playerName_nonempty.
      * apply paletteEntry_elem.
    + rewrite lookup_insert_ne by done. apply Hs.
  - rewrite RoomProperties.onLeave_players.
    destruct (decide (sid' = sid)) as [-> | Hne].
    + by rewrite lookup_delete_eq.
    + rewrite lookup_delete_ne by done. apply Hs.
  - unfold onMove. destruct (players s !! sid') as [p' |] eqn:Hp';
      cbn [fst players set_players]; [| apply Hs].
    destruct (decide (sid' = sid)) as [-> | Hne].
    + rewrite lookup_insert_eq. intros [= <-]. apply (Hs _ _ Hp').
    + rewrite lookup_insert_ne by done. apply Hs.
  - apply Hs.
  - unfold onStatus. destruct (players s !! sid') as [p' |] eqn:Hp';
      cbn [fst players set_players]; [| apply Hs].
    destruct (decide (sid' = sid)) as [-> | Hne].
    + rewrite lookup_insert_eq. intros [= <-]. apply (Hs _ _ Hp').
    + rewrite lookup_insert_ne by done. apply Hs.
  - unfold onHexSelect.
    destruct (hexGrid s !! hexKey mq mr), (players s !! sid'); apply Hs.
Qed.

Lemma run_presentable roomId es : ∀ s,
  (∀ sid p, players s !! sid = Some p → presentable p) →
  ∀ sid p, players (run roomId s es) !! sid = Some p → presentable p.
Proof.
  induction es as [| e es IH]; intros s Hs; cbn [run]; [done |].
  apply IH. by apply handle_presentable.
Qed.

(** X1. Whatever messages a fresh room has handled, every participant in
    it has a display name that is not empty and a colour that is one of
    the eight entries of the palette. *)
Theorem participants_presentable (roomId : string) (grid : gmap string HexCell)
    (es : list Inbound) (sid : string) (p : Player) :
  players (run roomId (onCreate grid) es) !! sid = Some p →
  name p ≠ "" ∧ color p ∈ playerColors.
Proof.
  apply (run_presentable roomId es (onCreate grid)).
  intros sid' p'. cbn. by rewrite lookup_empty.
Qed.

Lemma participants_presentable_witness :
  name (mkPlayer "Player_C" 0 0 "idle" 3 "#10b981") ≠ ""
  ∧ "#10b981" ∈ playerColors.
Proof.
  apply (participants_presentable "room" ∅ threeInOneOut "C"
           (mkPlayer "Player_C" 0 0 "idle" 3 "#10b981")).
  reflexivity.
Defined.

(** ** Cells *)

Lemma handle_freeOrHeld roomId s e :
  senderOf e ≠ "" →
  (∀ sid p, players s !! sid = Some p → presentable p) →
  (∀ k c, hexGrid s !! k = Some c → freeOrHeld c) →
  ∀ k c, hexGrid (fst (handle roomId s e)) !! k = Some c → freeOrHeld c.
Proof.
  intros Hsid Hp Hs k c.
  destruct e as [sid n now | sid | sid mx my | sid m now | sid st
                | sid mq mr]; cbn [handle senderOf] in *.
  - unfold onJoin; cbv zeta. destruct (Nat.leb 2 _); apply Hs.
  - rewrite RoomProperties.onLeave_hexGrid. apply Hs.
  - unfold onMove. destruct (players s !! sid); apply Hs.
  - apply Hs.
  - unfold onStatus. destruct (players s !! sid); apply Hs.
  - unfold onHexSelect.
    destruct (hexGrid s !! hexKey mq mr) as [cell |] eqn:Hcell; [| apply Hs].
    destruct (players s !! sid) as [p |] eqn:Hpl; [| apply Hs].
    cbn [fst hexGrid set_hexGrid].
    destruct (decide (hexKey mq mr = k)) as [<- | Hne].
    + rewrite lookup_insert_eq. intros [= <-].
      destruct (String.eqb (selectedBy cell) sid).
      * left. done.
      * right. split; [done |]. apply (Hp _ _ Hpl).
    + rewrite lookup_insert_ne by done. apply Hs.
Qed.

(** X2. In a room whose cells start free and whose messages come from
    identities that are not the empty string, every cell is at all times
    either free, with neither occupant nor colour, or held, with an
    occupant and a colour of the palette: the colour is empty exactly when
    the occupant is. *)
Theorem cells_free_or_held (roomId : string) (grid : gmap string HexCell)
    (es : list Inbound) (k : string) (c : HexCell) :
  (∀ k0 c0, grid !! k0 = Some c0 → selectedBy c0 = "" ∧ cellColor c0 = "") →
  Forall (λ e, senderOf e ≠ "") es →
  hexGrid (run roomId (onCreate grid) es) !! k = Some c →
  ((selectedBy c = "" ∧ cellColor c = "")
   ∨ (selectedBy c ≠ "" ∧ cellColor c ∈ playerColors))
  ∧ (cellColor c = "" ↔ selectedBy c = "").
Proof.
  intros Hgrid Hes Hk.
  assert (freeOrHeld c) as Hc.
  { revert Hk.
    assert (∀ sid p, players (onCreate grid) !! sid = Some p → presentable p)
      as Hp by (intros sid p; cbn; by rewrite lookup_empty).
    assert (∀ k0 c0, hexGrid (onCreate grid) !! k0 = Some c0 → freeOrHeld c0)
      as Hg by (intros k0 c0 H0; left; by apply (Hgrid k0)).
    generalize dependent (onCreate grid).
    induction Hes as [| e es He Hes IH]; intros s Hp Hg; cbn [run].
    - apply Hg.
    - apply IH.
      + by apply handle_presentable.
      + by apply handle_freeOrHeld. }
  split; [exact Hc |].
  destruct Hc as [[Ho Hc] | [Ho Hc]]; [by rewrite Ho, Hc |].
  split; [| done]. intros Hempty. rewrite Hempty in Hc.
  exfalso. revert Hc. unfold playerColors. rewrite !elem_of_cons, elem_of_nil.
  intros [? | [? | [? | [? | [? | [? | [? | [? | []]]]]]]]]; discriminate.
Qed.

Lemma cells_free_or_held_witness :
  cellColor (mkHexCell 0 0 "P2" "#ef4444") = ""
  ↔ selectedBy (mkHexCell 0 0 "P2" "#ef4444") = "".
Proof.
  apply (cells_free_or_held "room" (<["0,0" := origin]> ∅) endToEnd "0,0").
  - intros k0 c0. destruct (decide (k0 = "0,0")) as [-> | Hne].
    + rewrite lookup_insert_eq. by intros [= <-].
    + rewrite lookup_insert_ne by done. by rewrite lookup_empty.
  - unfold endToEnd. repeat constructor; discriminate.
  - reflexivity.
Defined.

Lemma handle_grid roomId s e k :
  match hexGrid s !! k, hexGrid (fst (handle roomId s e)) !! k with
  | Some c, Some c' => q c' = q c ∧ r c' = r c
  | None, None => True
  | _, _ => False
  end.
Proof.
  assert (match hexGrid s !! k, hexGrid s !! k with
          | Some c, Some c' => q c' = q c ∧ r c' = r c
          | None, None => True
          | _, _ => False
          end) as Hsame by (by destruct (hexGrid s !! k)).
  destruct e as [sid n now | sid | sid mx my | sid m now | sid st
                | sid mq mr]; cbn [handle].
  - unfold onJoin; cbv zeta. by destruct (Nat.leb 2 _).
  - by rewrite RoomProperties.onLeave_hexGrid.
  - unfold onMove. by destruct (players s !! sid).
  - done.
  - unfold onStatus. by destruct (players s !! sid).
  - unfold onHexSelect.
    destruct (hexGrid s !! hexKey mq mr) as [cell |] eqn:Hcell; [| done].
    destruct (players s !! sid) as [p |]; [| done].
    cbn [fst hexGrid set_hexGrid].
    destruct (decide (hexKey mq mr = k)) as [<- | Hne].
    + rewrite lookup_insert_eq, Hcell. by destruct (String.eqb _ _).
    + by rewrite lookup_insert_ne.
Qed.

Lemma run_grid roomId es k : ∀ s,
  match hexGrid s !! k, hexGrid (run roomId s es) !! k with
  | Some c, Some c' => q c' = q c ∧ r c' = r c
  | None, None => True
  | _, _ => False
  end.
Proof.
  induction es as [| e es IH]; intros s; cbn [run].
  - by destruct (hexGrid s !! k).
  - pose proof (handle_grid roomId s e k) as H1.
    pose proof (IH (fst (handle roomId s e))) as H2.
    destruct (hexGrid s !! k), (hexGrid (fst (handle roomId s e)) !! k),
      (hexGrid (run roomId (fst (handle roomId s e)) es) !! k);
      try done.
    destruct H1 as [<- <-]. done.
Qed.

(** X3. No message creates or destroys a cell or moves one: after any run
    the grid has a cell under exactly the keys it had before, and each
    cell carries the coordinates it had. *)
Theorem grid_cells_fixed (roomId : string) (s : MyState) (es : list Inbound) :
  dom (hexGrid (run roomId s es)) = dom (hexGrid s)
  ∧ ∀ k c c',
      hexGrid s !! k = Some c →
      hexGrid (run roomId s es) !! k = Some c' →
      q c' = q c ∧ r c' = r c.
Proof.
  split.
  - apply set_eq. intros k. rewrite !elem_of_dom.
    pose proof (run_grid roomId es k s) as H.
    destruct (hexGrid s !! k), (hexGrid (run roomId s es) !! k);
      try done; split; intros [? ?]; (done || by eexists).
  - intros k c c' Hc Hc'. pose proof (run_grid roomId es k s) as H.
    by rewrite Hc, Hc' in H.
Qed.

Lemma grid_cells_fixed_witness :
  q (mkHexCell 0 0 "P2" "#ef4444") = q origin
  ∧ r (mkHexCell 0 0 "P2" "#ef4444") = r origin.
Proof.
  destruct (grid_cells_fixed "room" (onCreate (<["0,0" := origin]> ∅)) endToEnd)
    as [_ Hcoord].
  apply (Hcoord "0,0"); reflexivity.
Defined.

(** ** Joining and leaving *)

Lemma state_eq (a b : MyState) :
  players a = players b → hexGrid a = hexGrid b →
  gameStatus a = gameStatus b → playerCount a = playerCount b → a = b.
Proof. destruct a, b; cbn; by intros -> -> -> ->. Qed.

Lemma onJoin_hexGrid roomId sid n now s :
  hexGrid (fst (onJoin roomId sid n now s)) = hexGrid s.
Proof. unfold onJoin; cbv zeta. by destruct (Nat.leb 2 _). Qed.

(** X4. A participant that joins a room it was not in and leaves again
    leaves no trace: the roster, the count, the status and the grid are
    what they were, provided count and status agreed with the roster
    before. *)
Theorem join_then_leave (roomId sid : string) (n : option string) (now : Z)
    (s : MyState) :
  players s !! sid = None →
  consistent s →
  fst (onLeave sid (fst (onJoin roomId sid n now s))) = s.
Proof.
  intros Hnone [Hcount Hstatus].
  assert (delete sid (players (fst (onJoin roomId sid n now s))) = players s)
    as Hdel.
  { rewrite RoomProperties.onJoin_players, delete_insert_eq. by apply delete_id. }
  apply state_eq.
  - by rewrite RoomProperties.onLeave_players.
  - by rewrite RoomProperties.onLeave_hexGrid, onJoin_hexGrid.
  - rewrite RoomProperties.onLeave_gameStatus, Hdel,
      RoomProperties.onJoin_gameStatus, RoomProperties.onJoin_playerCount,
      RoomProperties.onJoin_players, map_size_insert_None by done.
    rewrite Hstatus, Hcount. unfold statusOf.
    destruct (Nat.ltb_spec (size (players s)) 2) as [Hlt | Hge].
    + destruct (Nat.leb_spec 2 (size (players s))); [lia | done].
    + destruct (Nat.leb_spec 2 (S (size (players s)))); [| lia].
      destruct (Nat.leb_spec 2 (size (players s))); [done | lia].
  - by rewrite RoomProperties.onLeave_playerCount, Hdel.
Qed.

Lemma join_then_leave_witness :
  fst (onLeave "C" (fst (onJoin "room" "C" None 9 duel))) = duel.
Proof.
  apply join_then_leave.
  - reflexivity.
  - split; reflexivity.
Defined.

(** X5. A leave of an identity that is not in the room changes nothing in
    a room whose count and status agree with its roster, and still sends
    the stateUpdate and the playerUpdate to everybody. *)
Theorem leave_of_absent (sid : string) (s : MyState) :
  players s !! sid = None →
  consistent s →
  onLeave sid s =
    (s, [BroadcastStateUpdate (playerCount s) (gameStatus s) (size (players s));
         BroadcastPlayerUpdate (players s)]).
Proof.
  intros Hnone [Hcount Hstatus].
  assert (fst (onLeave sid s) = s) as Hfst.
  { apply state_eq.
    - rewrite RoomProperties.onLeave_players. by apply delete_id.
    - apply RoomProperties.onLeave_hexGrid.
    - rewrite RoomProperties.onLeave_gameStatus, delete_id by done.
      rewrite Hstatus, Hcount. unfold statusOf.
      destruct (Nat.ltb_spec (size (players s)) 2) as [Hlt | Hge]; [| done].
      destruct (Nat.leb_spec 2 (size (players s))); [lia | done].
    - rewrite RoomProperties.onLeave_playerCount, delete_id by done. done. }
  assert (snd (onLeave sid s) =
          [BroadcastStateUpdate (playerCount (fst (onLeave sid s)))
             (gameStatus (fst (onLeave sid s)))
             (size (players (fst (onLeave sid s))));
           BroadcastPlayerUpdate (players (fst (onLeave sid s)))]) as Hsnd
    by reflexivity.
  rewrite Hfst in Hsnd.
  destruct (onLeave sid s) as [s' out]. cbn [fst snd] in Hfst, Hsnd.
  by rewrite Hfst, Hsnd.
Qed.

Lemma leave_of_absent_witness :
  onLeave "C" duel =
    (duel, [BroadcastStateUpdate 2 "active" 2; BroadcastPlayerUpdate (players duel)]).
Proof.
  apply (leave_of_absent "C" duel).
  - reflexivity.
  - split; reflexivity.
Defined.

(** ** Colours of the first eight *)

Lemma assignedColors_length roomId es : ∀ s,
  forallb isJoin es = true → length (assignedColors roomId s es) = length es.
Proof.
  induction es as [| e es IH]; intros s Hjoins;
    cbn [forallb assignedColors length] in *; [done |].
  apply andb_prop in Hjoins as [He Hjoins].
  destruct e; try discriminate. cbn [length]. by rewrite IH.
Qed.

Lemma playerColors_NoDup : NoDup playerColors.
Proof. apply (bool_decide_unpack (NoDup playerColors)). by vm_compute. Qed.

(** X6. While no more than eight participants have joined a fresh room
    and none has left, no two of them have been given the same colour. *)
Theorem first_eight_distinct (roomId : string) (grid : gmap string HexCell)
    (es : list Inbound) :
  forallb isJoin es = true →
  noOverlap roomId (onCreate grid) es = true →
  (length es ≤ 8)%nat →
  NoDup (assignedColors roomId (onCreate grid) es).
Proof.
  intros Hjoins Hok Hlen. apply NoDup_alt. intros i j c Hi Hj.
  assert (i < length es)%nat as Hi'
    by (rewrite <- (assignedColors_length roomId es (onCreate grid)) by done;
        by eapply lookup_lt_Some).
  assert (j < length es)%nat as Hj'
    by (rewrite <- (assignedColors_length roomId es (onCreate grid)) by done;
        by eapply lookup_lt_Some).
  rewrite (RoomProperties.assignedColors_joins roomId es (onCreate grid) i)
    in Hi by done.
  rewrite (RoomProperties.assignedColors_joins roomId es (onCreate grid) j)
    in Hj by done.
  cbn [onCreate players set_gameStatus set_playerCount] in Hi, Hj.
  rewrite map_size_empty, !Nat.add_0_l in Hi, Hj.
  rewrite !Nat.mod_small in Hi, Hj by lia.
  injection Hi as <-. injection Hj as Hj.
  apply (NoDup_lookup playerColors i j (playerColors !!! i)).
  - apply playerColors_NoDup.
  - apply list_lookup_lookup_total_lt.
    change (length playerColors) with 8%nat. lia.
  - rewrite <- Hj. apply list_lookup_lookup_total_lt.
    change (length playerColors) with 8%nat. lia.
Qed.

Lemma first_eight_distinct_witness :
  NoDup (assignedColors "room" (onCreate ∅) (take 8 nineJoins)).
Proof.
  apply first_eight_distinct.
  - reflexivity.
  - vm_compute. reflexivity.
  - vm_compute. lia.
Defined.

(** ** hexSelect, twice and elsewhere *)

(** X7. Two hexSelects in a row on one cell by one participant, whose
    identity is not the empty string: if the cell was the participant's it
    is the participant's again, with the participant's colour; if it was
    free or somebody else's it ends up free, so a steal followed by a
    second click deselects the cell for good.  Nothing else changes. *)
Theorem hexSelect_twice_by_one (sid : string) (mq mr : Z) (s : MyState)
    (cell : HexCell) (p : Player) :
  sid ≠ "" →
  hexGrid s !! hexKey mq mr = Some cell →
  players s !! sid = Some p →
  fst (onHexSelect sid mq mr (fst (onHexSelect sid mq mr s))) =
    set_hexGrid
      (insert (hexKey mq mr)
         (if decide (selectedBy cell = sid)
          then mkHexCell (q cell) (r cell) sid (color p)
          else mkHexCell (q cell) (r cell) "" ""))
      s.
Proof.
  intros Hsid Hcell Hp.
  unfold onHexSelect at 2. rewrite Hcell, Hp. cbn [fst].
  unfold onHexSelect. cbn [hexGrid players set_hexGrid].
  rewrite lookup_insert_eq, Hp. cbn [fst].
  destruct (String.eqb_spec (selectedBy cell) sid) as [Heq | Hne];
    cbn [selectedBy q r].
  - destruct (String.eqb_spec "" sid) as [Hempty | _]; [by destruct Hsid |].
    rewrite decide_True by done. unfold set_hexGrid; cbn.
    by rewrite insert_insert_eq.
  - rewrite String.eqb_refl. rewrite decide_False by done.
    unfold set_hexGrid; cbn. by rewrite insert_insert_eq.
Qed.

Lemma hexSelect_twice_by_one_witness :
  hexGrid (fst (onHexSelect "B" 0 0 (fst (onHexSelect "B" 0 0 duel)))) !! "0,0"
  = Some origin.
Proof.
  rewrite (hexSelect_twice_by_one "B" 0 0 duel (mkHexCell 0 0 "A" "#3b82f6") bob).
  - reflexivity.
  - discriminate.
  - reflexivity.
  - reflexivity.
Defined.

(** ** What is broadcast *)

Lemma handle_coherent roomId s e :
  consistent s → Forall coherent (snd (handle roomId s e)).
Proof.
  intros Hs.
  destruct e as [sid n now | sid | sid mx my | sid m now | sid st
                | sid mq mr]; cbn [handle].
  - pose proof (RoomProperties.onJoin_playerCount roomId sid n now s) as Hc.
    pose proof (RoomProperties.onJoin_gameStatus roomId sid n now s) as Hst.
    change (snd (onJoin roomId sid n now s)) with
      [BroadcastStateUpdate (playerCount (fst (onJoin roomId sid n now s)))
         (gameStatus (fst (onJoin roomId sid n now s)))
         (size (players (fst (onJoin roomId sid n now s))));
       BroadcastPlayerUpdate (players (fst (onJoin roomId sid n now s)));
       SendWelcome sid sid (playerName sid n) roomId].
    repeat constructor; done.
  - destruct (RoomProperties.onLeave_consistent sid s Hs) as [Hc Hst].
    change (snd (onLeave sid s)) with
      [BroadcastStateUpdate (playerCount (fst (onLeave sid s)))
         (gameStatus (fst (onLeave sid s)))
         (size (players (fst (onLeave sid s))));
       BroadcastPlayerUpdate (players (fst (onLeave sid s)))].
    repeat constructor; done.
  - unfold onMove. destruct (players s !! sid); constructor.
  - repeat constructor.
  - unfold onStatus. destruct (players s !! sid); constructor.
  - unfold onHexSelect.
    destruct (hexGrid s !! hexKey mq mr), (players s !! sid);
      repeat constructor.
Qed.

Lemma outbound_coherent roomId es : ∀ s,
  consistent s → Forall coherent (outbound roomId s es).
Proof.
  induction es as [| e es IH]; intros s Hs; cbn [outbound]; [constructor |].
  apply Forall_app. split; [by apply handle_coherent |].
  apply IH. by apply RoomProperties.handle_consistent.
Qed.

(** X8. Every stateUpdate a room broadcasts, from its creation on, carries
    two equal counts and the status that goes with them: "active" for two
    or more, "waiting" otherwise. *)
Theorem stateUpdates_coherent (roomId : string) (grid : gmap string HexCell)
    (es : list Inbound) (count playersCount : nat) (st : string) :
  BroadcastStateUpdate count st playersCount
    ∈ outbound roomId (onCreate grid) es →
  count = playersCount
  ∧ (st = "active" ∧ (2 ≤ count)%nat ∨ st = "waiting" ∧ (count < 2)%nat).
Proof.
  intros Hin.
  pose proof (outbound_coherent roomId es (onCreate grid)
                (RoomProperties.onCreate_consistent grid)) as Hall.
  rewrite Forall_forall in Hall. destruct (Hall _ Hin) as [Hc Hst].
  split; [done |]. rewrite Hst. unfold statusOf.
  destruct (Nat.leb_spec 2 count); [left | right]; done.
Qed.

Lemma stateUpdates_coherent_witness :
  (2 : nat) = 2%nat
  ∧ ("active" = "active" ∧ (2 ≤ 2)%nat ∨ "active" = "waiting" ∧ (2 < 2)%nat).
Proof.
  apply (stateUpdates_coherent "room" ∅ threeInOneOut 2 2 "active").
  apply (list_elem_of_lookup_2 _ 9%nat). reflexivity.
Defined.

(** ** Keys of cells *)

Lemma pretty_N_go_commaFree (n : N) : ∀ s,
  commaFree s → commaFree (pretty_N_go n s).
Proof.
  induction (N.lt_wf_0 n) as [n _ IH]. intros s Hs.
  destruct (decide (n = 0)%N) as [-> | Hn]; [by rewrite pretty_N_go_0 |].
  rewrite pretty_N_go_step by lia. apply IH.
  - apply N.div_lt; lia.
  - split; [| done]. unfold pretty_N_char. repeat case_match; discriminate.
Qed.

Lemma pretty_positive_commaFree (p : positive) : commaFree (pretty p).
Proof.
  unfold pretty, pretty_positive, pretty, pretty_N.
  destruct (decide (N.pos p = 0)%N); [done |].
  by apply pretty_N_go_commaFree.
Qed.

Lemma pretty_Z_commaFree (z : Z) : commaFree (pretty z).
Proof.
  destruct z as [| p | p]; unfold pretty, pretty_Z.
  - split; [discriminate | done].
  - apply pretty_positive_commaFree.
  - split; [discriminate | apply pretty_positive_commaFree].
Qed.

Lemma comma_splits (a : string) : ∀ a' b b',
  commaFree a → commaFree a' →
  a ++ "," ++ b = a' ++ "," ++ b' → a = a' ∧ b = b'.
Proof.
  assert (∀ t, "" ++ t = t) as Hnil by reflexivity.
  assert (∀ c t u, String c t ++ u = String c (t ++ u)) as Hcons by reflexivity.
  induction a as [| c a IH]; intros [| c' a'] b b' Ha Ha' Heq;
    cbn [commaFree] in *; rewrite ?Hcons, ?Hnil in Heq.
  - injection Heq as Hb. by rewrite Hb.
  - injection Heq as Hc _. destruct Ha' as [Hc' _]. by rewrite <- Hc in Hc'.
  - injection Heq as Hc _. destruct Ha as [Hc' _]. by rewrite Hc in Hc'.
  - injection Heq as Hc Heq. destruct Ha as [_ Ha], Ha' as [_ Ha'].
    destruct (IH a' b b' Ha Ha' Heq) as [Ha0 Hb0]. by rewrite Hc, Ha0, Hb0.
Qed.

Lemma hexKey_inj mq mr mq' mr' :
  hexKey mq mr = hexKey mq' mr' → mq = mq' ∧ mr = mr'.
Proof.
  unfold hexKey. intros Heq.
  apply comma_splits in Heq as [Hq Hr]; try apply pretty_Z_commaFree.
  split; by apply (inj pretty).
Qed.

(** X9. Different coordinates that are exact integers (of absolute value
    at most 2^53, so that the key is their decimal notation) have
    different keys, so a hexSelect for one pair of such coordinates never
    touches the cell of another pair. *)
Theorem hexSelect_elsewhere (sid : string) (mq mr mq' mr' : Z) (s : MyState) :
  exactInteger mq → exactInteger mr →
  exactInteger mq' → exactInteger mr' →
  (mq, mr) ≠ (mq', mr') →
  hexKey mq mr ≠ hexKey mq' mr'
  ∧ hexGrid (fst (onHexSelect sid mq mr s)) !! hexKey mq' mr'
    = hexGrid s !! hexKey mq' mr'.
Proof.
  intros _ _ _ _ Hne.
  assert (hexKey mq mr ≠ hexKey mq' mr') as Hkey.
  { intros Heq. apply hexKey_inj in Heq as [-> ->]. by destruct Hne. }
  split; [done |]. unfold onHexSelect.
  destruct (hexGrid s !! hexKey mq mr), (players s !! sid); try done.
  cbn [fst hexGrid set_hexGrid]. by rewrite lookup_insert_ne.
Qed.

Lemma hexSelect_elsewhere_witness :
  hexKey 1 (-1) ≠ hexKey 11 1
  ∧ hexGrid (fst (onHexSelect "A" 1 (-1) duel)) !! hexKey 11 1
    = hexGrid duel !! hexKey 11 1.
Proof.
  apply hexSelect_elsewhere; try discriminate;
    unfold exactInteger; apply Z.leb_le; reflexivity.
Defined.

End RoomExtras.

(* ===================================================================== *)
(** * Properties of the hexagon scene *)
(* ===================================================================== *)

Module HexSceneProperties.
Import HexScene.

Lemma dist_le (s radius : Z) :
  Qle_bool (inject_Z s / 2) (inject_Z radius) = true ↔ s ≤ 2 * radius.
Proof.
  rewrite Qle_bool_iff. unfold Qle, Qdiv, Qmult, Qinv, inject_Z; simpl. lia.
Qed.

Lemma inner_elem (radius a b b' : Z) :
  mkAxial a b ∈
    (if Qle_bool (inject_Z (Z.abs a + Z.abs (- a - b') + Z.abs b') / 2)
          (inject_Z radius)
     then [mkAxial a b'] else [])
  ↔ b = b' ∧ Z.abs a + Z.abs (a + b) + Z.abs b ≤ 2 * radius.
Proof.
  destruct (Qle_bool _ _) eqn:Hd.
  - apply dist_le in Hd. rewrite list_elem_of_singleton. split.
    + intros [= ->]. split; [done | lia].
    + by intros [-> _].
  - rewrite elem_of_nil. split; [done |]. intros [-> Hle].
    assert (Qle_bool (inject_Z (Z.abs a + Z.abs (- a - b') + Z.abs b') / 2)
              (inject_Z radius) = true) as Ht by (apply dist_le; lia).
    congruence.
Qed.

(** X10. generateAxialRadius yields exactly the coordinates whose q, r
    and q + r all lie between -radius and radius: the hexagon of that
    radius around the origin. *)
Theorem generateAxialRadius_elem (radius a b : Z) :
  mkAxial a b ∈ generateAxialRadius radius
  ↔ Z.abs a ≤ radius ∧ Z.abs b ≤ radius ∧ Z.abs (a + b) ≤ radius.
Proof.
  unfold generateAxialRadius. rewrite list_elem_of_bind. split.
  - intros (a' & Hin & Ha'). apply list_elem_of_bind in Hin as (b' & Hin & Hb').
    cbv zeta in Hin. apply elem_of_seqZ in Ha', Hb'.
    assert (a' = a) as ->.
    { destruct (Qle_bool _ _); [| by apply elem_of_nil in Hin].
      apply list_elem_of_singleton in Hin. by injection Hin. }
    apply inner_elem in Hin as [-> Hle]. lia.
  - intros (Ha & Hb & Hab). exists a. split; [| apply elem_of_seqZ; lia].
    apply list_elem_of_bind. exists b. split; [| apply elem_of_seqZ; lia].
    cbv zeta. apply inner_elem. split; [done | lia].
Qed.

(** The inner loop for one [q]. *)
Lemma inner_length (radius a b : Z) :
  length
    (if Qle_bool (inject_Z (Z.abs a + Z.abs (- a - b) + Z.abs b) / 2)
          (inject_Z radius)
     then [mkAxial a b] else [])
  = if decide (Z.abs a + Z.abs (a + b) + Z.abs b ≤ 2 * radius) then 1%nat else 0%nat.
Proof.
  destruct (Qle_bool _ _) eqn:Hd.
  - apply dist_le in Hd. rewrite decide_True by lia. done.
  - rewrite decide_False; [done |]. intros Hle.
    assert (Qle_bool (inject_Z (Z.abs a + Z.abs (- a - b) + Z.abs b) / 2)
              (inject_Z radius) = true) as Ht by (apply dist_le; lia).
    congruence.
Qed.

(** A loop over [k] consecutive integers from [a] that yields one element
    for each of them between [lo] and [hi] and none for the others. *)
Lemma interval_length {A} (f : Z → list A) (lo hi a : Z) (k : nat) :
  (∀ b, length (f b) = if decide (lo ≤ b ≤ hi) then 1%nat else 0%nat) →
  Z.of_nat (length (seqZ a (Z.of_nat k) ≫= f))
  = Z.max 0 (Z.min hi (a + Z.of_nat k - 1) - Z.max lo a + 1).
Proof.
  intros Hf. induction k as [| k IH].
  - rewrite seqZ_nil by lia. cbn. lia.
  - rewrite seqZ_S, bind_app, length_app, Nat2Z.inj_add, IH.
    cbn [mbind list_bind app]. rewrite app_nil_r, Hf.
    destruct (decide (lo ≤ a + Z.of_nat k ≤ hi)); cbn; lia.
Qed.

Lemma row_length (radius a : Z) :
  Z.abs a ≤ radius →
  Z.of_nat (length
    (seqZ (- radius) (2 * radius + 1) ≫= λ b,
       if Qle_bool (inject_Z (Z.abs a + Z.abs (- a - b) + Z.abs b) / 2)
            (inject_Z radius)
       then [mkAxial a b] else []))
  = 2 * radius + 1 - Z.abs a.
Proof.
  intros Ha.
  replace (2 * radius + 1) with (Z.of_nat (Z.to_nat (2 * radius + 1))) at 1 by lia.
  rewrite (interval_length _ (Z.max (- radius) (- radius - a))
             (Z.min radius (radius - a))).
  - lia.
  - intros b. rewrite inner_length.
    destruct (decide (Z.abs a + Z.abs (a + b) + Z.abs b ≤ 2 * radius)),
      (decide (Z.max (- radius) (- radius - a) ≤ b ≤ Z.min radius (radius - a)));
      try done; lia.
Qed.

(** Rows [a], [a + 1], ... whose lengths grow or shrink by [m] from one
    to the next, summed up. *)
Lemma rows_length {A} (f : Z → list A) (c m a : Z) (k : nat) :
  (∀ b, a ≤ b < a + Z.of_nat k → Z.of_nat (length (f b)) = c + m * b) →
  2 * Z.of_nat (length (seqZ a (Z.of_nat k) ≫= f))
  = Z.of_nat k * (2 * c + m * (2 * a + Z.of_nat k - 1)).
Proof.
  induction k as [| k IH]; intros Hf.
  - rewrite seqZ_nil by lia. cbn. lia.
  - rewrite seqZ_S, bind_app, length_app, Nat2Z.inj_add.
    cbn [mbind list_bind app]. rewrite app_nil_r, Hf by lia.
    rewrite Z.mul_add_distr_l, IH; [nia |].
    intros b Hb. apply Hf. lia.
Qed.

Lemma hexagon_length {A} (f : Z → list A) (radius : Z) :
  0 ≤ radius →
  (∀ a, Z.abs a ≤ radius →
        Z.of_nat (length (f a)) = 2 * radius + 1 - Z.abs a) →
  Z.of_nat (length (seqZ (- radius) (2 * radius + 1) ≫= f))
  = 3 * radius * radius + 3 * radius + 1.
Proof.
  intros HR Hf.
  replace (2 * radius + 1) with (radius + (radius + 1)) by lia.
  rewrite seqZ_app, bind_app, length_app, Nat2Z.inj_add by lia.
  replace (- radius + radius) with 0 by lia.
  pose proof (rows_length f (2 * radius + 1) 1 (- radius) (Z.to_nat radius)) as Hlow.
  pose proof (rows_length f (2 * radius + 1) (-1) 0 (Z.to_nat (radius + 1))) as Hhigh.
  rewrite !Z2Nat.id in Hlow, Hhigh by lia.
  assert (2 * Z.of_nat (length (seqZ (- radius) radius ≫= f))
          = radius * (2 * (2 * radius + 1) + 1 * (2 * - radius + radius - 1)))
    as Hl by (apply Hlow; intros b Hb; rewrite Hf by lia; lia).
  assert (2 * Z.of_nat (length (seqZ 0 (radius + 1) ≫= f))
          = (radius + 1) * (2 * (2 * radius + 1) + -1 * (2 * 0 + (radius + 1) - 1)))
    as Hh by (apply Hhigh; intros b Hb; rewrite Hf by lia; lia).
  nia.
Qed.

Lemma generateAxialRadius_NoDup (radius : Z) :
  NoDup (generateAxialRadius radius).
Proof.
  unfold generateAxialRadius. apply NoDup_bind; [| | apply NoDup_seqZ].
  - intros a1 a2 c _ _ H1 H2.
    apply list_elem_of_bind in H1 as (b1 & H1 & _).
    apply list_elem_of_bind in H2 as (b2 & H2 & _). cbv zeta in H1, H2.
    destruct (Qle_bool _ _) in H1; [| by apply elem_of_nil in H1].
    destruct (Qle_bool _ _) in H2; [| by apply elem_of_nil in H2].
    apply list_elem_of_singleton in H1, H2. congruence.
  - intros a _. apply NoDup_bind; [| | apply NoDup_seqZ].
    + intros b1 b2 c _ _ H1 H2. cbv zeta in H1, H2.
      destruct (Qle_bool _ _) in H1; [| by apply elem_of_nil in H1].
      destruct (Qle_bool _ _) in H2; [| by apply elem_of_nil in H2].
      apply list_elem_of_singleton in H1, H2. congruence.
    + intros b _. cbv zeta. destruct (Qle_bool _ _); [| constructor].
      apply NoDup_singleton.
Qed.

(** X11. generateAxialRadius yields no coordinate twice, and for a radius
    that is not negative it yields 3 * radius^2 + 3 * radius + 1 of them
    (61 for the radius 4 of the scene); for a negative radius it yields
    none. *)
Theorem generateAxialRadius_size (radius : Z) :
  NoDup (generateAxialRadius radius)
  ∧ (0 ≤ radius →
     Z.of_nat (length (generateAxialRadius radius))
     = 3 * radius * radius + 3 * radius + 1)
  ∧ (radius < 0 → generateAxialRadius radius = []).
Proof.
  split; [apply generateAxialRadius_NoDup | split].
  - intros HR. unfold generateAxialRadius. cbv zeta.
    apply hexagon_length; [done |]. intros a Ha. by apply row_length.
  - intros HR. unfold generateAxialRadius. by rewrite seqZ_nil by lia.
Qed.

Lemma generateAxialRadius_size_witness :
  Z.of_nat (length (generateAxialRadius 4)) = 61.
Proof.
  destruct (generateAxialRadius_size 4) as (_ & Hlen & _).
  apply Hlen. lia.
Defined.

Lemma keyOf_inj (c c' : AxialCoordinate) : keyOf c = keyOf c' → c = c'.
Proof.
  destruct c as [a b], c' as [a' b']. unfold keyOf; cbn.
  intros Heq. by apply RoomExtras.hexKey_inj in Heq as [-> ->].
Qed.

(** X12. The cells the scene draws have pairwise different keys in the
    room: no two hexagons of the grid share a cell of the server. *)
Theorem generateAxialRadius_keys (radius : Z) :
  NoDup (keyOf <$> generateAxialRadius radius).
Proof.
  apply NoDup_fmap_2_strong.
  - intros c c' _ _. apply keyOf_inj.
  - apply generateAxialRadius_NoDup.
Qed.

End HexSceneProperties.

(* ===================================================================== *)
(** * Further properties of the connection hook *)
(* ===================================================================== *)

Module HookExtras.
Import UseColyseus.

(** ** The WebSocket URL *)

Lemma truthy_iff (v : string) : GameRoom.truthy v = true ↔ v ≠ "".
Proof. destruct v; cbn; split; (done || discriminate). Qed.

(** X13. An environment variable that is set and not empty decides the
    URL whatever the page is; one that is set to the empty string counts
    as not set. *)
Theorem getWebSocketConfig_environment (u : string) (window : option Location) :
  (u ≠ "" → getWebSocketConfig (Some u) window = mkConfig u Environment)
  ∧ getWebSocketConfig (Some "") window = getWebSocketConfig None window.
Proof.
  split; [| reflexivity].
  intros Hu. unfold getWebSocketConfig. cbn [from_option default].
  apply truthy_iff in Hu. by rewrite Hu.
Qed.

Lemma getWebSocketConfig_environment_witness :
  getWebSocketConfig (Some "wss://play.example.org")
    (Some (mkLocation "https:" "localhost"))
  = mkConfig "wss://play.example.org" Environment.
Proof.
  destruct (getWebSocketConfig_environment "wss://play.example.org"
              (Some (mkLocation "https:" "localhost"))) as [Henv _].
  apply Henv. discriminate.
Defined.

Lemma append_nil_l (t : string) : "" ++ t = t.
Proof. reflexivity. Qed.

Lemma append_cons c (t u : string) : String c t ++ u = String c (t ++ u).
Proof. reflexivity. Qed.

Lemma length_append (a b : string) :
  String.length (a ++ b) = (String.length a + String.length b)%nat.
Proof.
  induction a as [| c a IH]; [done |].
  rewrite append_cons. cbn [String.length]. by rewrite IH.
Qed.

Lemma includes_suffix (b : string) :
  includes ".onrender.com" (b ++ ".onrender.com") = true.
Proof.
  induction b as [| c b IH]; [reflexivity |].
  rewrite append_cons. cbn [includes]. rewrite IH. apply orb_true_r.
Qed.

Lemma replaceFirst_suffix (b : string) :
  dotFree b → replaceFirst ".onrender.com" "" (b ++ ".onrender.com") = b.
Proof.
  induction b as [| c b IH]; intros Hb; [reflexivity |].
  destruct Hb as [Hc Hb]. rewrite append_cons.
  cbn [replaceFirst].
  assert (String.prefix ".onrender.com" (String c (b ++ ".onrender.com")) = false)
    as ->.
  { cbn [String.prefix]. case_match; [| done].
    subst c. by destruct Hc. }
  by rewrite IH.
Qed.

Lemma render_not_local (b : string) :
  String.eqb (b ++ ".onrender.com") "localhost" = false
  ∧ String.eqb (b ++ ".onrender.com") "127.0.0.1" = false.
Proof.
  split; apply String.eqb_neq; intros Heq;
    apply (f_equal String.length) in Heq;
    rewrite length_append in Heq; cbn in Heq; lia.
Qed.

(** X14. On a Render host, [b.onrender.com] with no full stop in [b],
    the URL is that of the sibling service [b-websocket.onrender.com],
    with [wss:] on an [https:] page and [ws:] otherwise. *)
Theorem getWebSocketConfig_render (b pageProtocol : string) :
  dotFree b →
  getWebSocketConfig None (Some (mkLocation pageProtocol (b ++ ".onrender.com")))
  = mkConfig ((if String.eqb pageProtocol "https:" then "wss:" else "ws:")
              ++ "//" ++ b ++ "-websocket.onrender.com")
             AutoDetectRender.
Proof.
  intros Hb. unfold getWebSocketConfig.
  cbn [from_option protocol hostname].
  destruct (render_not_local b) as [-> ->]. cbn [orb].
  by rewrite includes_suffix, replaceFirst_suffix.
Qed.

Lemma getWebSocketConfig_render_witness :
  getWebSocketConfig None (Some (mkLocation "https:" "test-war.onrender.com"))
  = mkConfig "wss://test-war-websocket.onrender.com" AutoDetectRender.
Proof.
  apply (getWebSocketConfig_render "test-war" "https:").
  cbn. repeat split; discriminate.
Defined.

Lemma prefix_append (a t : string) : String.prefix a (a ++ t) = true.
Proof.
  induction a as [| c a IH]; [by destruct t |].
  rewrite append_cons. cbn [String.prefix].
  by destruct (Ascii.ascii_dec c c).
Qed.

(** X15. Without the environment variable the URL always starts with
    [ws://] or [wss://], and with [wss://] exactly when the page was
    loaded over [https:] from a host other than [localhost] and
    [127.0.0.1]. *)
Theorem getWebSocketConfig_scheme (window : option Location) :
  let c := getWebSocketConfig None window in
  (String.prefix "ws://" (url c) = true ∨ String.prefix "wss://" (url c) = true)
  ∧ (String.prefix "wss://" (url c) = true
     ↔ ∃ l, window = Some l ∧ protocol l = "https:"
            ∧ hostname l ≠ "localhost" ∧ hostname l ≠ "127.0.0.1").
Proof.
  cbv zeta. unfold getWebSocketConfig. cbn [from_option].
  destruct window as [[p h] |]; cbn [protocol hostname].
  2: { split; [by left |]. split; [discriminate | by intros (l & ? & _)]. }
  destruct (String.eqb_spec h "localhost") as [-> | Hlocal]; cbn [orb].
  { split; [by left |]. split; [discriminate |].
    intros (l & [= <-] & _ & Hl & _). by destruct Hl. }
  destruct (String.eqb_spec h "127.0.0.1") as [-> | Hloop].
  { split; [by left |]. split; [discriminate |].
    intros (l & [= <-] & _ & _ & Hl). by destruct Hl. }
  destruct (String.eqb_spec p "https:") as [-> | Hp].
  - assert (∀ t, String.prefix "wss://" (url (mkConfig ("wss:" ++ "//" ++ t)
                                               AutoDetectRender)) = true) as Hsec.
    { intros t. apply (prefix_append "wss://" t). }
    split.
    + right. case_match; apply Hsec.
    + split; [| intros _; case_match; apply Hsec].
      intros _. by eexists.
  - assert (∀ t, String.prefix "ws://" (url (mkConfig ("ws:" ++ "//" ++ t)
                                              AutoDetectRender)) = true) as Hplain.
    { intros t. apply (prefix_append "ws://" t). }
    split.
    + left. case_match; apply Hplain.
    + split.
      * case_match; discriminate.
      * intros (l & [= <-] & Hl & _). by destruct Hp.
Qed.

(** ** scheduleReconnect *)

Lemma scheduleReconnect_held o w :
  is_Some (reconnectTimeoutRef (refs w)) ∨ shouldReconnectRef (refs w) = false →
  scheduleReconnect o w = w.
Proof.
  intros Hheld. unfold scheduleReconnect.
  destruct Hheld as [Hsome | ->]; [| by rewrite orb_true_r].
  by rewrite (bool_decide_eq_true_2 _ Hsome).
Qed.

Lemma scheduleReconnect_free o w :
  reconnectTimeoutRef (refs w) = None →
  shouldReconnectRef (refs w) = true →
  scheduleReconnect o w =
    set_reconnectTimeoutRef (Some (nextTimer (env w)))
      (snd (setTimeout ReconnectTimer (inject_Z (reconnectInterval o))
              (log (LogReconnectingIn (reconnectInterval o))
                 (setConnectionStatus Reconnecting
                    (set_reconnectAttemptsRef (reconnectAttemptsRef (refs w) + 1)
                       w))))).
Proof.
  intros Hnone Hs. unfold scheduleReconnect. rewrite Hnone, Hs.
  rewrite bool_decide_eq_false_2 by (by intros [? ?]).
  reflexivity.
Qed.

(** X16. scheduleReconnect called again before its timer has fired does
    nothing: one reconnect timer is pending at a time and the attempt
    count grows by one, however often a reconnect is asked for. *)
Theorem scheduleReconnect_idempotent (o : HookOptions) (w : World) :
  scheduleReconnect o (scheduleReconnect o w) = scheduleReconnect o w
  ∧ (reconnectAttemptsRef (refs (scheduleReconnect o w))
     ≤ reconnectAttemptsRef (refs w) + 1)
  ∧ (size (timers (env (scheduleReconnect o w))) ≤ S (size (timers (env w))))%nat.
Proof.
  destruct (reconnectTimeoutRef (refs w)) as [id |] eqn:Hid.
  { rewrite !(scheduleReconnect_held o w) by (left; by rewrite Hid).
    repeat split; lia. }
  destruct (shouldReconnectRef (refs w)) eqn:Hs.
  2: { rewrite !(scheduleReconnect_held o w) by (by right).
       repeat split; lia. }
  rewrite (scheduleReconnect_free o w Hid Hs).
  split; [by apply scheduleReconnect_held; left |].
  split; [cbn; lia |].
  cbn. destruct (timers (env w) !! nextTimer (env w)) eqn:Hnext.
  - rewrite map_size_insert_Some by (by rewrite Hnext). lia.
  - rewrite map_size_insert_None by done. lia.
Qed.

(** ** The message of a failed attempt *)

(** X17. What a rejection says decides only the error text shown and the
    console line: the hook's cells, the status, the timers and the
    pending attempts after a failed attempt are the same for every
    rejection, and the text shown is the classified message. *)
Theorem rejection_text_only (o : HookOptions) (err err' : option string)
    (w : World) :
  let w1 := connectRejected o err w in
  let w2 := connectRejected o err' w in
  refs w1 = refs w2
  ∧ connectionStatus (ui w1) = connectionStatus (ui w2)
  ∧ room (ui w1) = room (ui w2) ∧ state (ui w1) = state (ui w2)
  ∧ timers (env w1) = timers (env w2)
  ∧ nextTimer (env w1) = nextTimer (env w2)
  ∧ pendingJoins (env w1) = pendingJoins (env w2)
  ∧ error (ui w1) = Some (errorMessage err).
Proof.
  cbv zeta. unfold connectRejected, scheduleReconnect. cbn.
  repeat case_match; cbn; done.
Qed.

(** ** Backoff *)

(** X18. The backoff delay never shrinks as the attempt number grows, and
    for every retry (attempt number 1 or more) it lies between 3000 and
    15000 milliseconds. *)
Theorem backoffDelay_monotone (n m : Z) :
  1 ≤ n → n ≤ m →
  (3000 <= backoffDelay n ∧ backoffDelay n <= backoffDelay m
   ∧ backoffDelay m <= 15000)%Q.
Proof.
  intros Hn Hnm. unfold backoffDelay.
  assert (∀ a b, a ≤ b → (2000 * (3 # 2) ^ a <= 2000 * (3 # 2) ^ b)%Q) as Hmono.
  { intros a b Hab. apply Qmult_le_l; [reflexivity |].
    apply Qpower_le_compat_l; [exact Hab | by vm_compute]. }
  split; [| split].
  - apply Q.min_glb; [| by vm_compute].
    apply Qle_trans with (2000 * (3 # 2) ^ 1)%Q; [by vm_compute |].
    by apply Hmono.
  - apply Q.min_le_compat_r. by apply Hmono.
  - apply Q.le_min_r.
Qed.

Lemma backoffDelay_monotone_witness :
  (3000 <= backoffDelay 2 ∧ backoffDelay 2 <= backoffDelay 7
   ∧ backoffDelay 7 <= 15000)%Q.
Proof. apply (backoffDelay_monotone 2 7); lia. Defined.

(** ** The room is left *)

(** X19. When the room is left, the status becomes disconnected and the
    room is dropped.  A reconnect is scheduled exactly when automatic
    reconnection is on, reconnection is not switched off, the close code
    is not 1000, the attempt count is below the maximum and no reconnect
    timer is pending: then the count grows by one, the status becomes
    reconnecting and the timer is due after reconnectInterval.
    Otherwise no timer is set and the count is as before. *)
Theorem onLeave_schedules (o : HookOptions) (code : Z) (w : World) :
  let w' := onLeave o code w in
  let n := reconnectAttemptsRef (refs w) in
  roomRef (refs w') = None ∧ room (ui w') = None
  ∧ if autoReconnect o && shouldReconnectRef (refs w) && negb (code =? 1000)
       && (n <? maxReconnectAttempts o)
       && bool_decide (reconnectTimeoutRef (refs w) = None)
    then reconnectAttemptsRef (refs w') = n + 1
         ∧ connectionStatus (ui w') = Reconnecting
         ∧ reconnectTimeoutRef (refs w') = Some (nextTimer (env w))
         ∧ timers (env w') =
             <[nextTimer (env w) :=
                 ((inject_Z (clock (env w)) + inject_Z (reconnectInterval o))%Q,
                  ReconnectTimer)]> (timers (env w))
    else reconnectAttemptsRef (refs w') = n
         ∧ connectionStatus (ui w') = Disconnected
         ∧ reconnectTimeoutRef (refs w') = reconnectTimeoutRef (refs w)
         ∧ timers (env w') = timers (env w).
Proof.
  cbv zeta. unfold onLeave.
  set (w1 := setRoom None (set_roomRef None (setConnectionStatus Disconnected
                                              (log (LogLeftRoom code) w)))).
  change (shouldReconnectRef (refs w1)) with (shouldReconnectRef (refs w)).
  change (reconnectAttemptsRef (refs w1)) with (reconnectAttemptsRef (refs w)).
  destruct (autoReconnect o && shouldReconnectRef (refs w) && negb (code =? 1000)
            && (reconnectAttemptsRef (refs w) <? maxReconnectAttempts o)) eqn:Hgo;
    cbn [andb]; [| done].
  apply andb_prop in Hgo as [Hgo _]. apply andb_prop in Hgo as [Hgo _].
  apply andb_prop in Hgo as [_ Hs].
  destruct (reconnectTimeoutRef (refs w)) as [id |] eqn:Hid.
  - rewrite bool_decide_eq_false_2 by done.
    rewrite scheduleReconnect_held by (left; cbn; by rewrite Hid).
    cbn. by rewrite Hid.
  - rewrite bool_decide_eq_true_2 by done.
    rewrite scheduleReconnect_free by (cbn; done).
    done.
Qed.

(** ** Messages of the room *)

(** X20. A stateUpdate and a playerUpdate may arrive in either order: the
    view holds the roster of the one and the count and status of the
    other, also when no view was held before. *)
Theorem updates_commute (count : nat) (gameStatus : string) (playersCount : nat)
    (roster : gmap string GameRoom.Player) (w : World) :
  onMessage (MsgStateUpdate count gameStatus playersCount)
    (onMessage (MsgPlayerUpdate roster) w)
  = onMessage (MsgPlayerUpdate roster)
      (onMessage (MsgStateUpdate count gameStatus playersCount) w)
  ∧ state (ui (onMessage (MsgStateUpdate count gameStatus playersCount)
                 (onMessage (MsgPlayerUpdate roster) w)))
    = Some (mkView (Some roster) (Some gameStatus) (Some count)).
Proof. by destruct w as [rf [? [v |] ? ? ? ?] ev]. Qed.

(** ** cleanup *)

(** X21. After cleanup reconnection is switched off, no reconnect timer,
    room or client is held, the view is empty and the chat is cleared;
    a second cleanup only writes its console line again. *)
Theorem cleanup_idempotent (w : World) :
  let w' := cleanup w in
  switchedOff w'
  ∧ reconnectTimeoutRef (refs w') = None ∧ clientRef (refs w') = None
  ∧ isConnectingRef (refs w') = false
  ∧ room (ui w') = None ∧ state (ui w') = None ∧ sessionId (ui w') = None
  ∧ messages (ui w') = []
  ∧ cleanup w' = log LogCleaningUp w'.
Proof.
  cbv zeta. unfold cleanup, switchedOff, log.
  destruct w as [[cl rm tm n c s F l] u v]. cbn.
  destruct tm, rm, cl; cbn; done.
Qed.

(** ** The attempt count stays within its bounds *)

Ltac open_world w :=
  destruct w as [[cl rm tm n c s F l] [? ? ? ? ? ?] [clk T nxt P L out]].








Lemma setTimeout_refs t d w : refs (snd (setTimeout t d w)) = refs w.
Proof. reflexivity. Qed.

Lemma manualReconnect_unfold w :
  manualReconnect w =
    snd (setTimeout ManualTimer 500
           (cleanup (set_shouldReconnectRef true
                       (set_connectionFailureCountRef 0
                          (set_reconnectAttemptsRef 0
                             (log LogManualReconnect w)))))).
Proof. reflexivity. Qed.


Lemma sendMessage_refs type data w : refs (sendMessage type data w) = refs w.
Proof.
  unfold sendMessage.
  destruct (roomRef _); [destruct (statusEqb _ _) |]; done.
Qed.

Lemma onMessage_refs m w : refs (onMessage m w) = refs w.
Proof. by destruct m. Qed.




(** ** Without automatic reconnection *)

Lemma connectRejected_manual o err w :
  autoReconnect o = false →
  timers (env (connectRejected o err w)) = timers (env w).
Proof. intros Hauto. unfold connectRejected. by rewrite Hauto. Qed.

Lemma singleAttempt_mounted now : singleAttempt (mounted now).
Proof.
  unfold singleAttempt, mounted, mount, connect.
  cbn -[Z.ltb Z.sub].
  destruct (now - 0 <? 5000); cbn; split; auto.
Qed.

Lemma singleAttempt_step o w now e w' :
  autoReconnect o = false →
  singleAttempt w →
  isAutomatic (now, e) = true →
  step o w now e = Some w' →
  singleAttempt w'.
Proof.
  intros Hauto [HT HPJ] He Hstep. unfold step in Hstep.
  destruct (now <? clock (env w)); [discriminate |].
  destruct e as [id | | err | | | | | | | |]; try discriminate; clear He.
  - cbn [timers env setClock] in Hstep.
    rewrite HT, lookup_empty in Hstep. discriminate.
  - cbn [pendingJoins env setClock] in Hstep.
    destruct (0 <? pendingJoins (env w))%nat eqn:Hpos; [| discriminate].
    injection Hstep as <-. apply Nat.ltb_lt in Hpos.
    destruct HPJ as [[HP HJ] | [HP HJ]]; [lia |].
    destruct (HookProperties.connectRejected_shape o err
                (settleJoin (setClock now w))) as (_ & HJ' & HP' & _).
    unfold singleAttempt.
    rewrite (connectRejected_manual o err _ Hauto), HJ', HP'.
    split; [exact HT |]. left.
    cbn [settleJoin setClock env pendingJoins]. rewrite HP.
    split; [reflexivity |].
    change (attemptsMade (settleJoin (setClock now w))) with (attemptsMade w).
    lia.
Qed.

(** X23. Without automatic reconnection (the default), a mounted hook
    left to itself makes at most one connection attempt and never sets a
    timer: after a failure it stays as it is until somebody acts. *)
Theorem single_attempt_unless_autoReconnect (o : HookOptions) (now : Z)
    (es : list (Z * Event)) (w : World) :
  autoReconnect o = false →
  forallb isAutomatic es = true →
  run o (mounted now) es = Some w →
  (attemptsMade w ≤ 1)%nat ∧ timers (env w) = ∅
  ∧ (pendingJoins (env w) ≤ 1)%nat.
Proof.
  intros Hauto.
  assert (∀ w0, singleAttempt w0 →
            forallb isAutomatic es = true → run o w0 es = Some w →
            singleAttempt w) as Hrun.
  { induction es as [| [t e] es IH]; intros w0 H0 Hes Hrun;
      cbn [run forallb] in *.
    - by injection Hrun as <-.
    - apply andb_prop in Hes as [He Hes].
      destruct (step o w0 t e) as [w1 |] eqn:Hstep; [| discriminate].
      eapply IH; [| done | done]. by eapply singleAttempt_step. }
  intros Hes Hw.
  destruct (Hrun _ (singleAttempt_mounted now) Hes Hw) as [HT HPJ].
  destruct HPJ as [[HP HJ] | [HP HJ]]; repeat split; try done; lia.
Qed.

Lemma single_attempt_unless_autoReconnect_witness :
  let w := default (initial 0)
             (run defaultOptions (mounted 1000000) [(1000100, JoinRejects None)]) in
  (attemptsMade w ≤ 1)%nat ∧ timers (env w) = ∅
  ∧ (pendingJoins (env w) ≤ 1)%nat.
Proof.
  apply (single_attempt_unless_autoReconnect defaultOptions 1000000
           [(1000100, JoinRejects None)]).
  - reflexivity.
  - reflexivity.
  - vm_compute. reflexivity.
Defined.

(** ** Switched off *)

Lemma connect_off w :
  shouldReconnectRef (refs w) = false → ∃ l, connect w = log l w.
Proof.
  intros Hs. unfold connect. rewrite Hs.
  destruct (isConnectingRef (refs w)); by eexists.
Qed.

Lemma cleanup_staysOff w : staysOff w (cleanup w).
Proof.
  unfold staysOff, switchedOff, cleanup. open_world w. cbn.
  by destruct tm, rm, cl.
Qed.

Lemma runTask_staysOff t w : switchedOff w → staysOff w (runTask t w).
Proof.
  intros [Hs Hr]. unfold staysOff, switchedOff.
  destruct t; cbn [runTask].
  - done.
  - unfold connectResume. by rewrite Hr.
  - change (shouldReconnectRef (refs (set_reconnectTimeoutRef None w)))
      with (shouldReconnectRef (refs w)).
    by rewrite Hs.
  - by rewrite Hs.
Qed.

Lemma connectResolved_staysOff r w :
  switchedOff w → staysOff w (connectResolved r w).
Proof.
  intros [Hs Hr]. unfold staysOff, switchedOff, connectResolved.
  by rewrite Hs.
Qed.

Lemma connectRejected_staysOff o err w :
  switchedOff w → staysOff w (connectRejected o err w).
Proof.
  unfold staysOff, switchedOff, connectRejected. open_world w.
  cbn [refs shouldReconnectRef roomRef]. intros [-> ->].
  cbn. by destruct (autoReconnect o).
Qed.

Lemma onLeave_staysOff o code w :
  switchedOff w → staysOff w (onLeave o code w).
Proof.
  unfold staysOff, switchedOff, onLeave. open_world w.
  cbn [refs shouldReconnectRef roomRef]. intros [-> ->].
  cbn. by destruct (autoReconnect o).
Qed.

Lemma staysOff_step o w now e w' :
  switchedOff w →
  isRemount (now, e) = false →
  step o w now e = Some w' →
  staysOff w w'.
Proof.
  intros Hw He Hstep. unfold step in Hstep.
  destruct (now <? clock (env w)); [discriminate |].
  destruct e as [id | r | err | r code message | r code | r m | | | type data | |];
    try discriminate; clear He.
  - destruct (timers (env (setClock now w)) !! id) as [[due task] |];
      [| discriminate].
    destruct (Qle_bool due (inject_Z now)); [| discriminate].
    injection Hstep as <-.
    apply (runTask_staysOff task (clearTimeout id (setClock now w))). exact Hw.
  - destruct (0 <? pendingJoins (env (setClock now w)))%nat; [| discriminate].
    injection Hstep as <-.
    apply (connectResolved_staysOff r (settleJoin (setClock now w))). exact Hw.
  - destruct (0 <? pendingJoins (env (setClock now w)))%nat; [| discriminate].
    injection Hstep as <-.
    apply (connectRejected_staysOff o err (settleJoin (setClock now w))). exact Hw.
  - destruct (bool_decide (r ∈ listening (env (setClock now w)))); [| discriminate].
    injection Hstep as <-. split; [exact Hw | reflexivity].
  - destruct (bool_decide (r ∈ listening (env (setClock now w)))); [| discriminate].
    injection Hstep as <-.
    apply (onLeave_staysOff o code (unlisten r (setClock now w))). exact Hw.
  - destruct (bool_decide (r ∈ listening (env (setClock now w)))); [| discriminate].
    injection Hstep as <-. unfold staysOff, switchedOff.
    rewrite onMessage_refs. split; [exact Hw | reflexivity].
  - injection Hstep as <-. unfold staysOff, switchedOff.
    rewrite manualReconnect_unfold, setTimeout_refs.
    destruct (cleanup_staysOff
                (set_shouldReconnectRef true
                   (set_connectionFailureCountRef 0
                      (set_reconnectAttemptsRef 0
                         (log LogManualReconnect (setClock now w))))))
      as [Hoff Hlast].
    split; [exact Hoff | rewrite Hlast; reflexivity].
  - injection Hstep as <-. unfold disconnect.
    destruct (cleanup_staysOff
                (setConnectionStatus Disconnected
                   (set_shouldReconnectRef false
                      (log LogManualDisconnect (setClock now w)))))
      as [Hoff Hlast].
    split; [exact Hoff | rewrite Hlast; reflexivity].
  - injection Hstep as <-. unfold staysOff, switchedOff.
    rewrite sendMessage_refs. split; [exact Hw | reflexivity].
  - injection Hstep as <-. unfold unmount.
    destruct (cleanup_staysOff (log LogUnmounting (setClock now w)))
      as [Hoff Hlast].
    split; [exact Hoff | rewrite Hlast; reflexivity].
Qed.

(** X24. Once reconnection is switched off and no room is held (as after
    disconnect, unmount or cleanup), the hook stays so through every event
    but a remount, a manual reconnect request included: no connect call
    opens an attempt, every call of connect is dropped, every message to
    send is refused with the console warning, and a room handed over by an
    attempt that was still pending is left at once. *)
Theorem switched_off_until_remount (o : HookOptions) (es : list (Z * Event))
    (w w' : World) :
  switchedOff w →
  forallb (λ e, negb (isRemount e)) es = true →
  run o w es = Some w' →
  switchedOff w'
  ∧ lastConnectionAttemptRef (refs w') = lastConnectionAttemptRef (refs w)
  ∧ (∃ l, connect w' = log l w')
  ∧ (∀ type data,
       sendMessage type data w' =
         emit (ConsoleWarn "Cannot send message: room not connected") w')
  ∧ (∀ now r w'',
       step o w' now (JoinResolves r) = Some w'' →
       roomRef (refs w'') = None
       ∧ output (env w'') = (output (env w') ++ [RoomLeave r])%list).
Proof.
  intros Hw Hes Hrun.
  assert (staysOff w w') as [Hoff Hlast].
  { revert w Hw Hrun.
    induction es as [| [t e] es IH]; intros w Hw Hrun; cbn [run forallb] in *.
    - injection Hrun as <-. split; [exact Hw | reflexivity].
    - apply andb_prop in Hes as [He Hes]. apply negb_true_iff in He.
      destruct (step o w t e) as [w1 |] eqn:Hstep; [| discriminate].
      destruct (staysOff_step o w t e w1 Hw He Hstep) as [Hoff1 Hlast1].
      destruct (IH Hes w1 Hoff1 Hrun) as [Hoff Hlast].
      split; [exact Hoff | congruence]. }
  split; [exact Hoff |]. split; [exact Hlast |].
  destruct Hoff as [Hs Hr].
  split; [by apply connect_off |].
  split.
  - intros type data. unfold sendMessage. by rewrite Hr.
  - intros now r w'' Hstep. unfold step in Hstep.
    destruct (now <? clock (env w')); [discriminate |].
    destruct (0 <? pendingJoins (env (setClock now w')))%nat; [| discriminate].
    injection Hstep as <-. unfold connectResolved.
    change (shouldReconnectRef (refs (settleJoin (setClock now w'))))
      with (shouldReconnectRef (refs w')).
    rewrite Hs. cbn. by rewrite Hr.
Qed.

Lemma switched_off_until_remount_witness :
  switchedOff
    (default (initial 0)
       (run defaultOptions offline
          [(1010000, ClickReconnect); (1010500, TimerFires 1)])).
Proof.
  apply (switched_off_until_remount defaultOptions
           [(1010000, ClickReconnect); (1010500, TimerFires 1)] offline).
  - split; reflexivity.
  - reflexivity.
  - vm_compute. reflexivity.
Defined.

(** ** One attempt at a time *)

Lemma noBackoff_insert T id d t :
  t ≠ BackoffElapsed → noBackoff T → noBackoff (<[id := (d, t)]> T).
Proof.
  intros Ht HT id' due Hid'.
  destruct (decide (id = id')) as [<- | Hne].
  - rewrite lookup_insert_eq in Hid'. congruence.
  - rewrite lookup_insert_ne in Hid' by done. by eapply HT.
Qed.

Lemma noBackoff_delete T id : noBackoff T → noBackoff (delete id T).
Proof.
  intros HT id' due Hid'.
  destruct (decide (id = id')) as [<- | Hne].
  - by rewrite lookup_delete_eq in Hid'.
  - rewrite lookup_delete_ne in Hid' by done. by eapply HT.
Qed.

Lemma noBackoff_atMostOne T : noBackoff T → atMostOneBackoff T.
Proof. intros HT id id' due due' Hid _. by destruct (HT id due). Qed.

Lemma inFlight_insert_other c P T id d t :
  t ≠ BackoffElapsed → inFlight c P T → inFlight c P (<[id := (d, t)]> T).
Proof.
  intros Ht (HP & Hc & H1 & Huniq).
  split; [exact HP |]. split; [| split].
  - intros Hfalse. destruct (Hc Hfalse) as [H0 Hno].
    split; [exact H0 | by apply noBackoff_insert].
  - intros Hone. by apply noBackoff_insert, H1.
  - intros i i' due due' Hi Hi'.
    destruct (decide (id = i)) as [<- | Hne];
      [rewrite lookup_insert_eq in Hi; congruence |].
    destruct (decide (id = i')) as [<- | Hne'];
      [rewrite lookup_insert_eq in Hi'; congruence |].
    rewrite lookup_insert_ne in Hi, Hi' by done. by eapply Huniq.
Qed.

Lemma inFlight_delete c P T id : inFlight c P T → inFlight c P (delete id T).
Proof.
  intros (HP & Hc & H1 & Huniq).
  split; [exact HP |]. split; [| split].
  - intros Hfalse. destruct (Hc Hfalse) as [H0 Hno].
    split; [exact H0 | by apply noBackoff_delete].
  - intros Hone. by apply noBackoff_delete, H1.
  - intros i i' due due' Hi Hi'.
    destruct (decide (id = i)) as [<- | Hne];
      [by rewrite lookup_delete_eq in Hi |].
    destruct (decide (id = i')) as [<- | Hne'];
      [by rewrite lookup_delete_eq in Hi' |].
    rewrite lookup_delete_ne in Hi, Hi' by done. by eapply Huniq.
Qed.

Lemma inFlight_open_backoff P T id d :
  inFlight false P T → inFlight true P (<[id := (d, BackoffElapsed)]> T).
Proof.
  intros (HP & Hc & H1 & Huniq). destruct (Hc eq_refl) as [-> Hno].
  split; [lia |]. split; [done |]. split; [intros; lia |].
  intros i i' due due' Hi Hi'.
  destruct (decide (id = i)) as [<- | Hne].
  - destruct (decide (id = i')) as [<- | Hne']; [done |].
    rewrite lookup_insert_ne in Hi' by done. by destruct (Hno i' due').
  - rewrite lookup_insert_ne in Hi by done. by destruct (Hno i due).
Qed.

Lemma inFlight_open_join P T : inFlight false P T → inFlight true (S P) T.
Proof.
  intros (HP & Hc & H1 & Huniq). destruct (Hc eq_refl) as [-> Hno].
  split; [lia |]. split; [done |]. split; [done |]. exact Huniq.
Qed.

Lemma inFlight_backoff_fires c P T id d :
  inFlight c P T →
  T !! id = Some (d, BackoffElapsed) →
  inFlight c (S P) (delete id T).
Proof.
  intros (HP & Hc & H1 & Huniq) Hid.
  assert (c = true) as ->.
  { destruct c; [done |]. destruct (Hc eq_refl) as [_ Hno].
    by destruct (Hno id d). }
  assert (P = 0%nat) as ->.
  { destruct P as [| [| P]]; [done | | lia].
    by destruct (H1 eq_refl id d). }
  assert (noBackoff (delete id T)) as Hno.
  { intros i due Hi.
    destruct (decide (id = i)) as [<- | Hne];
      [by rewrite lookup_delete_eq in Hi |].
    rewrite lookup_delete_ne in Hi by done.
    by destruct (Hne (Huniq _ _ _ _ Hid Hi)). }
  split; [lia |]. split; [done |]. split; [done |].
  by apply noBackoff_atMostOne.
Qed.

Lemma inFlight_settle c P T :
  inFlight c P T → (0 < P)%nat → inFlight false (pred P) T.
Proof.
  intros (HP & Hc & H1 & Huniq) Hpos.
  assert (P = 1%nat) as -> by lia.
  split; [cbn; lia |]. split; [| split; [done | exact Huniq]].
  intros _. split; [done | by apply H1].
Qed.

Lemma admits_idle w : admits w = true → isConnectingRef (refs w) = false.
Proof. unfold admits. by destruct (isConnectingRef (refs w)). Qed.

Lemma connect_oneInFlight w : oneInFlight w → oneInFlight (connect w).
Proof.
  intros Hw. unfold oneInFlight in *.
  destruct (HookProperties.connect_cases w) as
    [(_ & _ & l & ->) | [(_ & [(l & ->) | (_ & _ & _ & ->)])
    | [(Hadm & _ & _ & ->) | (Hadm & _ & _ & ->)]]].
  - exact Hw.
  - exact Hw.
  - by apply (inFlight_insert_other _ _ (timers (env w)) (nextTimer (env w))).
  - rewrite (admits_idle w Hadm) in Hw.
    by apply (inFlight_open_backoff _ (timers (env w)) (nextTimer (env w))).
  - rewrite (admits_idle w Hadm) in Hw.
    unfold connectResume.
    destruct (roomRef (refs (opened w)));
      by apply (inFlight_open_join (pendingJoins (env w)) (timers (env w))).
Qed.

Lemma connectRejected_flight o err w :
  let w' := connectRejected o err w in
  isConnectingRef (refs w') = false
  ∧ pendingJoins (env w') = pendingJoins (env w)
  ∧ (timers (env w') = timers (env w)
     ∨ ∃ id due, timers (env w') = <[id := (due, ReconnectTimer)]> (timers (env w))).
Proof.
  cbv zeta. split; [reflexivity |].
  by destruct (HookProperties.connectRejected_shape o err w) as (_ & _ & ? & ?).
Qed.

Lemma onLeave_flight o code w :
  let w' := onLeave o code w in
  isConnectingRef (refs w') = isConnectingRef (refs w)
  ∧ pendingJoins (env w') = pendingJoins (env w)
  ∧ (timers (env w') = timers (env w)
     ∨ ∃ id due, timers (env w') = <[id := (due, ReconnectTimer)]> (timers (env w))).
Proof.
  cbv zeta. unfold onLeave, scheduleReconnect. cbn.
  repeat case_match; cbn; repeat split; eauto.
Qed.

Lemma oneInFlight_step o w now e w' :
  oneInFlight w →
  runsCleanup (now, e) = false →
  step o w now e = Some w' →
  oneInFlight w'.
Proof.
  intros Hw He Hstep. unfold step in Hstep.
  destruct (now <? clock (env w)); [discriminate |].
  assert (oneInFlight (setClock now w)) as Hnow by exact Hw.
  destruct e as [id | r | err | r code message | r code | r m | | | type data | |];
    try discriminate; clear He.
  - cbn [timers env setClock] in Hstep.
    destruct (timers (env w) !! id) as [[due task] |] eqn:Hid; [| discriminate].
    destruct (Qle_bool due (inject_Z now)); [| discriminate].
    injection Hstep as <-.
    assert (oneInFlight (clearTimeout id (setClock now w))) as Hclear
      by (by apply (inFlight_delete _ _ (timers (env w)) id)).
    destruct task; cbn [runTask].
    + exact Hclear.
    + unfold connectResume.
      destruct (roomRef (refs (clearTimeout id (setClock now w))));
        by apply (inFlight_backoff_fires _ _ (timers (env w)) id due).
    + case_match; [apply connect_oneInFlight |]; exact Hclear.
    + case_match; [by apply connect_oneInFlight | exact Hclear].
  - cbn [pendingJoins env setClock] in Hstep.
    destruct (0 <? pendingJoins (env w))%nat eqn:Hpos; [| discriminate].
    injection Hstep as <-. apply Nat.ltb_lt in Hpos.
    unfold connectResolved.
    destruct (negb (shouldReconnectRef (refs (settleJoin (setClock now w)))));
      by apply (inFlight_settle (isConnectingRef (refs w)) _ (timers (env w))).
  - cbn [pendingJoins env setClock] in Hstep.
    destruct (0 <? pendingJoins (env w))%nat eqn:Hpos; [| discriminate].
    injection Hstep as <-. apply Nat.ltb_lt in Hpos.
    pose proof (inFlight_settle _ _ _ Hw Hpos) as Hsettled.
    destruct (connectRejected_flight o err (settleJoin (setClock now w)))
      as (Hc & HP & [HT | (id & due & HT)]);
      unfold oneInFlight; rewrite Hc, HP, HT;
      [exact Hsettled |].
    by apply (inFlight_insert_other _ _ (timers (env w))).
  - destruct (bool_decide (r ∈ listening (env (setClock now w)))); [| discriminate].
    injection Hstep as <-. exact Hw.
  - destruct (bool_decide (r ∈ listening (env (setClock now w)))); [| discriminate].
    injection Hstep as <-.
    destruct (onLeave_flight o code (unlisten r (setClock now w)))
      as (Hc & HP & [HT | (id & due & HT)]);
      unfold oneInFlight; rewrite Hc, HP, HT;
      [exact Hw |].
    by apply (inFlight_insert_other _ _ (timers (env w))).
  - destruct (bool_decide (r ∈ listening (env (setClock now w)))); [| discriminate].
    injection Hstep as <-. destruct m; exact Hw.
  - injection Hstep as <-. unfold sendMessage.
    destruct (roomRef (refs (setClock now w))); [| exact Hw].
    destruct (statusEqb _ _); exact Hw.
  - injection Hstep as <-. unfold mount. apply connect_oneInFlight. exact Hw.
Qed.

(** X25. From the mount on, through every event in which cleanup is not
    run (so without the two buttons and the unmount), at most one
    connection attempt is under way: at most one joinOrCreate is pending,
    at most one backoff delay is being waited out, never both, and
    neither while isConnectingRef is false. *)
Theorem one_attempt_at_a_time (o : HookOptions) (now : Z)
    (es : list (Z * Event)) (w : World) :
  forallb (λ e, negb (runsCleanup e)) es = true →
  run o (mounted now) es = Some w →
  oneInFlight w.
Proof.
  assert (oneInFlight (mounted now)) as Hstart.
  { unfold mounted, mount. apply connect_oneInFlight.
    split; [cbn; lia |]. split; [| split]; done. }
  revert Hstart. generalize (mounted now) as w0.
  induction es as [| [t e] es IH]; intros w0 H0 Hes Hrun;
    cbn [run forallb] in *.
  - by injection Hrun as <-.
  - apply andb_prop in Hes as [He Hes]. apply negb_true_iff in He.
    destruct (step o w0 t e) as [w1 |] eqn:Hstep; [| discriminate].
    eapply IH; [| done | done]. by eapply oneInFlight_step.
Qed.

Lemma one_attempt_at_a_time_witness : oneInFlight afterThreeFailures.
Proof.
  apply (one_attempt_at_a_time autoOptions 1000000 threeFailures).
  - reflexivity.
  - vm_compute. reflexivity.
Defined.

(** ** A successful attempt, a room error *)

(** X26. When joinOrCreate resolves while reconnection is on, the hook
    is connected to that room: both counts are back to zero (so the
    circuit breaker is closed), the view starts from the default, the
    room's listeners are attached, and every message to send is handed to
    that room. *)
Theorem connection_established (o : HookOptions) (w w' : World) (now : Z)
    (r : RoomInstance) :
  shouldReconnectRef (refs w) = true →
  step o w now (JoinResolves r) = Some w' →
  connectionStatus (ui w') = Connected
  ∧ roomRef (refs w') = Some r ∧ room (ui w') = Some r
  ∧ sessionId (ui w') = Some (roomSessionId r)
  ∧ reconnectAttemptsRef (refs w') = 0
  ∧ connectionFailureCountRef (refs w') = 0
  ∧ isConnectingRef (refs w') = false
  ∧ state (ui w') = Some defaultView
  ∧ r ∈ listening (env w')
  ∧ pendingJoins (env w') = pred (pendingJoins (env w))
  ∧ ∀ type data, sendMessage type data w' = emit (RoomSend r type data) w'.
Proof.
  intros Hs Hstep. unfold step in Hstep.
  destruct (now <? clock (env w)); [discriminate |].
  destruct (0 <? pendingJoins (env (setClock now w)))%nat; [| discriminate].
  injection Hstep as <-. unfold connectResolved.
  change (shouldReconnectRef (refs (settleJoin (setClock now w))))
    with (shouldReconnectRef (refs w)).
  rewrite Hs. cbn [negb].
  repeat (split; [reflexivity || apply list_elem_of_here |]).
  reflexivity.
Qed.

Lemma connection_established_witness :
  connectionStatus (ui online) = Connected
  ∧ roomRef (refs online) = Some (mkRoom "s1" "r1").
Proof.
  destruct (connection_established defaultOptions (mounted 1000000) online
              1000200 (mkRoom "s1" "r1")) as (Hstatus & Hroom & _).
  - reflexivity.
  - vm_compute. reflexivity.
  - split; [exact Hstatus | exact Hroom].
Defined.

(** X27. A room error only shows: the status becomes error with the
    message and the code in the text, while the room stays held, no timer
    is set and no attempt is made.  Until the status is connected again,
    every message to send is refused with the console warning although the
    room is still held. *)
Theorem room_error_blocks_sending (code : Z) (message : string) (w : World) :
  let w' := onError code message w in
  refs w' = refs w
  ∧ connectionStatus (ui w') = Error
  ∧ error (ui w') =
      Some ("Room error: " ++ message ++ " (" ++ pretty code ++ ")")
  ∧ room (ui w') = room (ui w)
  ∧ timers (env w') = timers (env w)
  ∧ pendingJoins (env w') = pendingJoins (env w)
  ∧ attemptsMade w' = attemptsMade w
  ∧ ∀ type data,
      sendMessage type data w' =
        emit (ConsoleWarn "Cannot send message: room not connected") w'.
Proof.
  cbv zeta. unfold onError.
  repeat (split; [reflexivity |]).
  split.
  - rewrite <- (HookProperties.attemptsMade_log (LogRoomError code message) w).
    reflexivity.
  - intros type data. unfold sendMessage.
    by destruct (roomRef _).
Qed.

End HookExtras.
